(** * Toxic comment classification notebook: a shallow embedding

    The notebook [Preprocessing/toxic_comment_preprocessing.ipynb] cleans
    comment text with three regular-expression substitutions, splits the
    rows into a training and a validation part, wraps them in a PyTorch
    [Dataset] / [DataLoader], fine-tunes a BERT classifier for one epoch
    and evaluates it with a per-label ROC-AUC.

    Conventions of the embedding:
    - a Python [str] is a list of Unicode code points ([list N]);
    - a Python [float] that holds a finite value is a rational ([Q]);
      NaN and the infinities are outside the model; where the rounding
      of an operation decides what the program does, the operation
      rounds to binary64;
    - a raised exception is the [Raise] case of [result];
    - code that mutates the model, its gradients or the optimizer runs in
      the state monad [M] over [world];
    - what the notebook imports (the tokenizer, the BERT encoder, the
      automatic differentiation, the optimizer, the random generators) is
      a parameter or a field of an interface class, and the theorems hold
      for every implementation of the interface. *)

From Stdlib Require Import QArith Qround Qabs Qminmax Lia Lqa.
From Stdlib Require Import DecimalString.
From stdpp Require Import gmap strings list.

Local Open Scope Z_scope.
Local Open Scope nat_scope.

(** ** Exceptions *)

Inductive exn : Type :=
| TypeError
| ValueError
| IndexError
| KeyError
| ZeroDivisionError
| RuntimeError.

Inductive result (A : Type) : Type :=
| Ok (a : A)
| Raise (e : exn).
Arguments Ok {A} a.
Arguments Raise {A} e.

Definition rbind {A B} (r : result A) (f : A -> result B) : result B :=
  match r with
  | Ok a => f a
  | Raise e => Raise e
  end.

Fixpoint rmapM {A B} (f : A -> result B) (l : list A) : result (list B) :=
  match l with
  | [] => Ok []
  | x :: l' => rbind (f x) (fun y => rbind (rmapM f l') (fun ys => Ok (y :: ys)))
  end.

(** ** Python values that can sit in a cell of the data frame *)

Definition pystr : Type := list N.

Definition str_of (s : string) : pystr :=
  map Ascii.N_of_ascii (String.list_ascii_of_string s).

Inductive pyval : Type :=
| PyStr (s : pystr)
| PyInt (z : Z)
| PyBool (b : bool)
| PyNone
| PyNaN.

(** [str(v)], the coercion [astype(str)] applies to every cell. *)
Definition py_str (v : pyval) : pystr :=
  match v with
  | PyStr s => s
  | PyInt z => str_of (NilZero.string_of_int (Z.to_int z))
  | PyBool true => str_of "True"
  | PyBool false => str_of "False"
  | PyNone => str_of "None"
  | PyNaN => str_of "nan"
  end.

(** ** Regular expressions: the fragment the notebook uses *)

Module Re.

(** One position of a pattern: a literal, [\S], or a negated set of
    code-point ranges [[^...]]. *)
Inductive atom : Type :=
| Lit (c : N)
| NonSpace
| NotIn (ranges : list (N * N)).

Inductive item : Type :=
| One (a : atom)
| Plus (a : atom).

Definition in_range (c : N) (r : N * N) : bool :=
  (fst r <=? c)%N && (c <=? snd r)%N.

(** The code points [\s] matches in a [str] pattern. *)
Definition whitespace : list (N * N) :=
  [ (9, 13); (28, 32); (133, 133); (160, 160); (5760, 5760);
    (8192, 8202); (8232, 8233); (8239, 8239); (8287, 8287);
    (12288, 12288) ]%N.

Definition is_space (c : N) : bool := existsb (in_range c) whitespace.

Definition atom_matches (a : atom) (c : N) : bool :=
  match a with
  | Lit d => (c =? d)%N
  | NonSpace => negb (is_space c)
  | NotIn ranges => negb (existsb (in_range c) ranges)
  end.

(** [match_here p s]: the length of the match of [p] at the start of
    [s], as the backtracking matcher finds it ([+] is greedy). *)
Fixpoint match_here (p : list item) : pystr -> option nat :=
  match p with
  | [] => fun _ => Some 0
  | One a :: p' =>
      fun s =>
        match s with
        | c :: s' => if atom_matches a c then S <$> match_here p' s' else None
        | [] => None
        end
  | Plus a :: p' =>
      fix more (s : pystr) : option nat :=
        match s with
        | c :: s' =>
            if atom_matches a c then
              match more s' with
              | Some n => Some (S n)
              | None => S <$> match_here p' s'
              end
            else None
        | [] => None
        end
  end.

(** [re.sub(p, repl, s)] for a pattern that matches no empty string:
    leftmost matches, not overlapping, each replaced by [repl].
    [skip] counts the characters of the current match still to drop. *)
Fixpoint sub_from (p : list item) (repl : pystr) (skip : nat) (s : pystr) : pystr :=
  match s with
  | [] => []
  | c :: s' =>
      match skip with
      | S k => sub_from p repl k s'
      | O =>
          match match_here p s with
          | Some (S k) => repl ++ sub_from p repl k s'
          | _ => c :: sub_from p repl 0 s'
          end
      end
  end.

Definition sub (p : list item) (repl : pystr) (s : pystr) : pystr :=
  sub_from p repl 0 s.

End Re.

(** ** Cell 4: [clean_text] *)

(** [r'http\S+'] *)
Definition url_pattern : list Re.item :=
  [Re.One (Re.Lit 104); Re.One (Re.Lit 116); Re.One (Re.Lit 116);
   Re.One (Re.Lit 112); Re.Plus Re.NonSpace]%N.

(** [r'\n'] *)
Definition newline_pattern : list Re.item := [Re.One (Re.Lit 10)]%N.

(** The set [A-Za-z0-9 ] *)
Definition keep_ranges : list (N * N) :=
  [(65, 90); (97, 122); (48, 57); (32, 32)]%N.

(** [r'[^A-Za-z0-9 ]+'] *)
Definition special_pattern : list Re.item := [Re.Plus (Re.NotIn keep_ranges)].

(** [str.lower] on the code points that reach it: after the third
    substitution only [A-Za-z0-9 ] is left, where lowering moves [A-Z]
    to [a-z] and keeps the rest. *)
Definition lower_char (c : N) : N :=
  if ((65 <=? c) && (c <=? 90))%N then (c + 32)%N else c.

Definition lower (s : pystr) : pystr := map lower_char s.

(** [re.sub(p, repl, text)]: [TypeError] when [text] is not a string. *)
Definition re_sub (p : list Re.item) (repl : pystr) (text : pyval) : result pystr :=
  match text with
  | PyStr s => Ok (Re.sub p repl s)
  | _ => Raise TypeError
  end.

Definition clean_text (text : pyval) : result pystr :=
  rbind (re_sub url_pattern [] text) (fun text =>
  rbind (re_sub newline_pattern [32%N] (PyStr text)) (fun text =>
  rbind (re_sub special_pattern [] (PyStr text)) (fun text =>
  Ok (lower text)))).

(** A missing cell: [None] or NaN ([pd.isna]). *)
Definition isna (v : pyval) : bool :=
  match v with
  | PyNone | PyNaN => true
  | _ => false
  end.

(** [df['comment_text'].astype(str)]. The notebook installs pandas
    without a version. Up to pandas 2 every cell becomes [str(cell)], a
    missing one the string "nan" or "None"; from pandas 3 on [str]
    names the string dtype, which converts the cells that hold a value
    and keeps a missing cell missing (NaN). [na_preserved] says which
    of the two the installed pandas does: it is true from pandas 3 on. *)
Definition astype_str (na_preserved : bool) (column : list pyval) : list pyval :=
  map (fun v => if na_preserved && isna v then PyNaN else PyStr (py_str v)) column.

(** [column.apply(f)] *)
Definition apply {A} (f : pyval -> result A) (column : list pyval) : result (list A) :=
  rmapM f column.

(** [df['comment_text'].astype(str).apply(clean_text)] *)
Definition clean_column (na_preserved : bool) (column : list pyval)
  : result (list pystr) :=
  apply clean_text (astype_str na_preserved column).

(** The same cleaning, said with list functions (used to state what
    the three substitutions compute). *)
Definition keep_char (c : N) : bool := existsb (Re.in_range c) keep_ranges.

Definition newline_to_space (c : N) : N := if (c =? 10)%N then 32%N else c.

Definition nonspace (c : N) : bool := negb (Re.is_space c).

Definition starts_url (s : pystr) : bool :=
  match s with
  | h :: t1 :: t2 :: p :: c :: _ =>
      (h =? 104)%N && (t1 =? 116)%N && (t2 =? 116)%N && (p =? 112)%N
      && nonspace c
  | _ => false
  end.

Fixpoint drop_while {A} (f : A -> bool) (l : list A) : list A :=
  match l with
  | [] => []
  | x :: l' => if f x then drop_while f l' else l
  end.

(** The number of leading elements that satisfy [f]. *)
Fixpoint prefix_length {A} (f : A -> bool) (l : list A) : nat :=
  match l with
  | [] => 0
  | x :: l' => if f x then S (prefix_length f l') else 0
  end.

(** Drops every maximal substring that starts with "http" followed by at
    least one non-space character and runs up to the next space
    character. [fuel] bounds the number of steps. *)
Fixpoint strip_urls (fuel : nat) (s : pystr) : pystr :=
  match fuel with
  | O => s
  | S fuel' =>
      match s with
      | [] => []
      | c :: s' =>
          if starts_url s
          then strip_urls fuel' (drop_while nonspace (drop 4 s))
          else c :: strip_urls fuel' s'
      end
  end.

(** ** Cell 5: the label columns *)

Definition labels : list string :=
  ["toxic"; "severe_toxic"; "obscene"; "threat"; "insult"; "identity_hate"]%string.

(** A row of the data frame after cells 4 and 5: the cleaned comment
    (a string) and the integer columns, by column name. *)
Record Row : Type := {
  comment_text : pystr;
  int_columns : gmap string Z
}.

(** Every label column has a cell in the row (cell 5 assigns each of
    them). *)
Definition has_label_columns (row : Row) : Prop :=
  forall label, label ∈ labels -> is_Some (int_columns row !! label).

(** ** Random generators of the libraries *)

Class Random : Type := {
  (** [numpy.random.RandomState(seed).permutation(n)] *)
  np_permutation : Z -> nat -> list nat;
  (** the state of a [torch.Generator] *)
  Generator : Type;
  (** [torch.randperm(n, generator=g)] and the generator after it *)
  torch_randperm : Generator -> nat -> list nat * Generator
}.

(** What the two permutation functions promise. *)
Class RandomSpec (R : Random) : Prop := {
  np_permutation_spec : forall seed n, np_permutation seed n ≡ₚ seq 0 n;
  torch_randperm_spec : forall g n, (torch_randperm g n).1 ≡ₚ seq 0 n
}.

(** ** Binary floating point

    Python's [float] is binary64. Where the value of a float decides
    what the program does (the number of validation rows of cell 6), the
    rounding of the arithmetic is modelled: a float is the rational it
    stands for, and an operation rounds its exact result to the nearest
    binary64 number. *)

(** [2^k] for an integer [k] of either sign. *)
Definition pow2 (k : Z) : Q :=
  if (0 <=? k)%Z then inject_Z (2 ^ k) else / inject_Z (2 ^ (- k)).

(** [floor (log2 x)] for [0 < x]. *)
Definition floor_log2 (x : Q) : Z :=
  let p := Qnum x in
  let q := Zpos (Qden x) in
  if (q <=? p)%Z then Z.log2 (p / q) else (- Z.log2_up ((q + p - 1) / p))%Z.

(** The integer nearest to [m], the even one of the two when [m] is
    half-way between them. *)
Definition round_half_even (m : Q) : Z :=
  let f := Qfloor m in
  match (m - inject_Z f ?= 1 # 2)%Q with
  | Lt => f
  | Gt => (f + 1)%Z
  | Eq => if Z.even f then f else (f + 1)%Z
  end.

(** The binary64 number nearest to [x > 0] (round to nearest, ties to
    even): a multiple of the unit in the last place of [x], which is
    [2^(e - 52)] for [2^e <= x < 2^(e+1)] and [2^(-1074)] below
    [2^(-1022)]. Overflow, from [2^1024] on, is outside the model. *)
Definition binary64_pos (x : Q) : Q :=
  let ulp := pow2 (Z.max (floor_log2 x) (-1022) - 52) in
  (inject_Z (round_half_even (x / ulp)) * ulp)%Q.

Definition binary64 (x : Q) : Q :=
  match Qnum x with
  | Z0 => 0%Q
  | Zpos _ => binary64_pos x
  | Zneg _ => (- binary64_pos (- x))%Q
  end.

(** [float(n)] for an integer, and the product of two floats. *)
Definition float_of_int (n : Z) : Q := binary64 (inject_Z n).

Definition float_mul (x y : Q) : Q := binary64 (x * y).

(** ** Cell 6: [train_test_split] *)

(** Modelled from the spec: [train_test_split] is scikit-learn's and is
    not in src/. Section 4.2: a deterministic random partition in which
    [fraction] of the examples go to validation, within rounding. The
    rounding is the library's: the validation count is the product of
    the fraction and the number of rows, computed in binary64 and
    rounded up. *)
Definition n_test_samples (test_size : Q) (n_samples : nat) : Z :=
  Qceiling (float_mul test_size (float_of_int (Z.of_nat n_samples))).

(** Modelled from the spec: the sizes of the two parts. The library
    takes a fraction strictly between 0 and 1, gives the rows that are
    not validation rows to the training part, and refuses a split in
    which one of the parts would be empty. *)
Definition validate_shuffle_split (n_samples : nat) (test_size : Q) : result (nat * nat) :=
  if Qle_bool test_size 0 || Qle_bool 1 test_size then Raise ValueError
  else
    let n_test := Z.to_nat (n_test_samples test_size n_samples) in
    let n_train := n_samples - n_test in
    if (n_train =? 0) || (n_test =? 0) then Raise ValueError else Ok (n_train, n_test).






(** [test_size=0.1]: the binary64 number the literal stands for. *)
Definition TEST_SIZE : Q := binary64 (1 # 10).

(** ** Cell 8: [ToxicCommentsDataset] *)

Inductive padding_strategy : Type :=
| PadMaxLength
| PadLongest
| DoNotPad.

Record encode_kwargs : Type := {
  add_special_tokens : bool;
  max_length : nat;
  padding : padding_strategy;
  truncation : bool;
  return_token_type_ids : bool
}.

Record BatchEncoding : Type := {
  input_ids : list Z;
  attention_mask : list Z;
  token_type_ids : list Z
}.

(** [tokenizer.encode_plus(text, **kwargs)] *)
Definition Tokenizer : Type := pystr -> encode_kwargs -> BatchEncoding.

(** The boundary contract of the tokenizer (section 6): with truncation
    and padding to [max_length], the three sequences have that length. *)
Definition tokenizer_contract (tokenizer : Tokenizer) : Prop :=
  forall text kw,
    padding kw = PadMaxLength -> truncation kw = true ->
    length (input_ids (tokenizer text kw)) = max_length kw
    /\ length (attention_mask (tokenizer text kw)) = max_length kw
    /\ length (token_type_ids (tokenizer text kw)) = max_length kw.

Record ToxicCommentsDataset : Type := {
  self_df : list Row;
  self_tokenizer : Tokenizer;
  self_max_len : nat;
  self_labels : list string
}.

(** The dictionary [__getitem__] returns. [targets] is a float tensor
    that holds the integer label values. *)
Record EncodedExample : Type := {
  ex_input_ids : list Z;
  ex_attention_mask : list Z;
  ex_token_type_ids : list Z;
  ex_targets : list Z
}.

(** [ToxicCommentsDataset.__len__] *)
Definition __len__ (self : ToxicCommentsDataset) : nat := length (self_df self).

(** [df.iloc[index]]: a position below zero counts from the end;
    [IndexError] outside [-len, len). *)
Definition iloc (df : list Row) (index : Z) : result Row :=
  let n := Z.of_nat (length df) in
  let position := if (index <? 0)%Z then (index + n)%Z else index in
  if (0 <=? position)%Z && (position <? n)%Z then
    match df !! Z.to_nat position with
    | Some row => Ok row
    | None => Raise IndexError
    end
  else Raise IndexError.

(** [row[columns].values]: the cells of the named columns, in the order
    of [columns]; [KeyError] for a column the row does not have. *)
Definition select_columns (row : Row) (columns : list string) : result (list Z) :=
  rmapM (fun col => match int_columns row !! col with
                    | Some v => Ok v
                    | None => Raise KeyError
                    end) columns.

(** The dtype of a NumPy array (or of a pandas Series). *)
Inductive dtype : Type :=
| dtype_int64
| dtype_object.

(** A one-dimensional array of integer cells, with its dtype. *)
Record ndarray : Type := {
  nd_dtype : dtype;
  nd_data : list Z
}.

(** [row[columns].values] for [row = df.iloc[index]], given the cells
    selected. The row is a Series over all the columns of the frame;
    it holds the comment, a string, next to the integer cells, so its
    dtype is [object], and so is the dtype of every selection of its
    cells and of the array [values] returns. *)
Definition values (row : Row) (cells : list Z) : ndarray :=
  {| nd_dtype := dtype_object; nd_data := cells |}.

(** [torch.tensor(data, dtype=torch.float)] for a NumPy array:
    [TypeError] for an array of dtype [object], which torch does not
    convert. *)
Definition torch_tensor (data : ndarray) : result (list Z) :=
  match nd_dtype data with
  | dtype_object => Raise TypeError
  | dtype_int64 => Ok (nd_data data)
  end.

(** [ToxicCommentsDataset.__getitem__] *)
Definition __getitem__ (self : ToxicCommentsDataset) (index : Z) : result EncodedExample :=
  rbind (iloc (self_df self) index) (fun row =>
  let text := comment_text row in
  let inputs := self_tokenizer self text
                  {| add_special_tokens := true;
                     max_length := self_max_len self;
                     padding := PadMaxLength;
                     truncation := true;
                     return_token_type_ids := true |} in
  rbind (iloc (self_df self) index) (fun row' =>
  rbind (select_columns row' (self_labels self)) (fun cells =>
  rbind (torch_tensor (values row' cells)) (fun targets =>
  Ok {| ex_input_ids := input_ids inputs;
        ex_attention_mask := attention_mask inputs;
        ex_token_type_ids := token_type_ids inputs;
        ex_targets := targets |})))).

(** ** Cell 9: the data loaders *)

Definition MAX_LEN : nat := 128.
Definition BATCH_SIZE : nat := 16.

(** [ToxicCommentsDataset(df.reset_index(drop=True), tokenizer, MAX_LEN, labels)],
    as cell 9 builds its two datasets. Renumbering the index keeps the
    rows and their order. *)
Definition make_dataset (df : list Row) (tokenizer : Tokenizer) : ToxicCommentsDataset :=
  {| self_df := df;
     self_tokenizer := tokenizer;
     self_max_len := MAX_LEN;
     self_labels := labels |}.

(** A collated batch: every field stacks the field of its examples. *)
Record Batch : Type := {
  b_input_ids : list (list Z);
  b_attention_mask : list (list Z);
  b_token_type_ids : list (list Z);
  b_targets : list (list Z)
}.

Record DataLoader : Type := {
  dl_dataset : ToxicCommentsDataset;
  dl_batch_size : nat;
  dl_shuffle : bool
}.

(** [DataLoader(train_dataset, batch_size=BATCH_SIZE, shuffle=True)] *)
Definition train_loader (train_dataset : ToxicCommentsDataset) : DataLoader :=
  {| dl_dataset := train_dataset; dl_batch_size := BATCH_SIZE; dl_shuffle := true |}.

(** [DataLoader(val_dataset, batch_size=BATCH_SIZE, shuffle=False)] *)
Definition val_loader (val_dataset : ToxicCommentsDataset) : DataLoader :=
  {| dl_dataset := val_dataset; dl_batch_size := BATCH_SIZE; dl_shuffle := false |}.

(** Modelled from the spec: [DataLoader] is PyTorch's and is not in src/.
    Section 4.4: with [shuffle] the indices are visited in a fresh random
    permutation, without it in store order; they are grouped into batches
    of [batchSize], the last batch holding the remainder. *)
Definition sampler `{Random} (shuffle : bool) (n : nat) (g : Generator)
  : list nat * Generator :=
  if shuffle then torch_randperm g n else (seq 0 n, g).

(** The batch sampler: [batch] is the batch being filled. *)
Fixpoint batch_sampler (batch_size : nat) (batch : list nat) (indices : list nat)
  : list (list nat) :=
  match indices with
  | [] => if 0 <? length batch then [batch] else []
  | idx :: rest =>
      let batch := batch ++ [idx] in
      if length batch =? batch_size
      then batch :: batch_sampler batch_size [] rest
      else batch_sampler batch_size batch rest
  end.

(** The index batches of one traversal, and the generator after it. *)
Definition index_batches `{Random} (dl : DataLoader) (g : Generator)
  : list (list nat) * Generator :=
  let '(indices, g') := sampler (dl_shuffle dl) (__len__ (dl_dataset dl)) g in
  (batch_sampler (dl_batch_size dl) [] indices, g').

Definition collate (examples : list EncodedExample) : Batch :=
  {| b_input_ids := map ex_input_ids examples;
     b_attention_mask := map ex_attention_mask examples;
     b_token_type_ids := map ex_token_type_ids examples;
     b_targets := map ex_targets examples |}.

Definition fetch (dataset : ToxicCommentsDataset) (indices : list nat) : result Batch :=
  rbind (rmapM (fun i => __getitem__ dataset (Z.of_nat i)) indices) (fun examples =>
  Ok (collate examples)).

(** One traversal of the loader. The constructor refuses a batch size
    that is not positive. *)
Definition dataloader_iter `{Random} (dl : DataLoader) (g : Generator)
  : result (list Batch) * Generator :=
  if dl_batch_size dl =? 0 then (Raise ValueError, g)
  else
    let '(batches, g') := index_batches dl g in
    (rmapM (fetch (dl_dataset dl)) batches, g').


(** ** Cell 10: the classifier *)

(** What PyTorch and the pretrained checkpoint provide: the encoder, the
    random draws of the dropout layers, and the two transcendental
    functions used by the loss and by the evaluation. *)
Class Encoder : Type := {
  BertParams : Type;
  (** the state of the generator the dropout layers draw from *)
  Seed : Type;
  (** [bert(input_ids, attention_mask, token_type_ids).pooler_output]:
      one row per example *)
  bert_pooler_output :
    BertParams -> bool -> Seed ->
    list (list Z) -> list (list Z) -> list (list Z) -> list (list Q);
  (** whether the dropout layer keeps unit [j] of example [k] *)
  dropout_keep : Seed -> nat -> nat -> bool;
  next_seed : Seed -> Seed;
  (** [log(sigmoid(x))] *)
  log_sigmoid : Q -> Q;
  (** [torch.sigmoid] *)
  sigmoid : Q -> Q
}.

(** The encoder returns one pooled row per example of the batch. *)
Class EncoderSpec (E : Encoder) : Prop := {
  bert_pooler_rows :
    forall p training seed ids mask types,
      length (bert_pooler_output p training seed ids mask types) = length ids
}.

(** The parameters of [BertForToxicComment]: the encoder's and the
    weight and bias of the linear layer [out]. *)
Record BertForToxicComment `{Encoder} : Type := {
  bert : BertParams;
  out_weight : list (list Q);
  out_bias : list Q
}.

Definition Qsum (l : list Q) : Q := foldr Qplus 0%Q l.

Definition dot (u v : list Q) : Q := Qsum (zip_with Qmult u v).

(** [nn.Dropout(p)]: in training mode a unit is zeroed or scaled by
    [1/(1-p)]; in evaluation mode the layer is the identity. *)
Definition Dropout `{Encoder} (p : Q) (training : bool) (seed : Seed)
    (x : list (list Q)) : list (list Q) :=
  if training then
    imap (fun k row =>
            imap (fun j v => if dropout_keep seed k j then (v / (1 - p))%Q else 0%Q) row) x
  else x.

(** [nn.Linear]: [x W^T + b], row by row. *)
Definition Linear (weight : list (list Q)) (bias : list Q) (x : list (list Q))
  : list (list Q) :=
  map (fun xi => zip_with (fun w b => (dot w xi + b)%Q) weight bias) x.

Definition drop_p : Q := (3 # 10)%Q.

(** [BertForToxicComment.forward] *)
Definition forward `{Encoder} (self : BertForToxicComment) (training : bool) (seed : Seed)
    (input_ids attention_mask token_type_ids : list (list Z)) : list (list Q) :=
  let pooled_output :=
    bert_pooler_output (bert self) training seed input_ids attention_mask token_type_ids in
  let output := Dropout drop_p training seed pooled_output in
  Linear (out_weight self) (out_bias self) output.

(** ** Cell 11: loss, optimizer, scheduler *)

(** A loss function on the values of the logits and the targets. *)
Definition Criterion : Type := list (list Q) -> list (list Z) -> Q.

(** One element of the binary cross-entropy on logits:
    [-(y log(sigmoid x) + (1 - y) log(sigmoid (-x)))]. *)
Definition bce_with_logits `{Encoder} (x : Q) (y : Z) : Q :=
  (- (inject_Z y * log_sigmoid x + (1 - inject_Z y) * log_sigmoid (- x)))%Q.

(** [nn.BCEWithLogitsLoss()] with its default reduction: the mean over
    all elements (examples and labels) of the batch. *)
Definition BCEWithLogitsLoss `{Encoder} : Criterion :=
  fun outputs targets =>
    let elements := concat (zip_with (zip_with bce_with_logits) outputs targets) in
    (Qsum elements / inject_Z (Z.of_nat (length elements)))%Q.

(** Automatic differentiation, the optimizer and the learning-rate
    schedule. *)
Class Optim `{Encoder} : Type := {
  Grads : Type;
  OptState : Type;
  (** [loss.backward()]: the gradient of the loss, as a function of the
      parameters, at the current parameters, added to the stored one *)
  autograd_backward :
    (BertForToxicComment -> Q) -> BertForToxicComment -> Grads -> Grads;
  zero_grad : Grads -> Grads;
  (** [clip_grad_norm_(parameters, max_norm)] *)
  clip_grad_norm : Q -> Grads -> Grads;
  (** [AdamW.step] *)
  adamw_step : OptState -> BertForToxicComment -> Grads -> OptState * BertForToxicComment;
  (** [scheduler.step]: the new learning rate, stored in the optimizer *)
  lr_scheduler_step : OptState -> OptState
}.

Inductive Scheduler : Type := LinearScheduleWithWarmup.

(** ** The state the training and evaluation functions act on *)

Inductive event : Type :=
| CallModelTrain
| CallModelEval
| CallForward (training grad_enabled : bool)
| CallCriterion
| CallZeroGrad
| CallBackward
| CallClipGradNorm (max_norm : Q)
| CallOptimizerStep
| CallSchedulerStep.

Record world `{Optim} : Type := {
  w_model : BertForToxicComment;   (* the parameters *)
  w_training : bool;               (* model.training *)
  w_grad : Grads;                  (* the .grad of the parameters *)
  w_optimizer : OptState;
  w_grad_enabled : bool;           (* torch.is_grad_enabled() *)
  w_seed : Seed;
  w_log : list event               (* the library calls made so far *)
}.

(** A tensor of logits with the function that recomputes it from the
    parameters when gradients are being recorded. *)
Record Logits `{Encoder} : Type := {
  logits_values : list (list Q);
  logits_graph : option (BertForToxicComment -> list (list Q))
}.

Record Loss `{Encoder} : Type := {
  loss_item : Q;
  loss_graph : option (BertForToxicComment -> Q)
}.

Definition M `{Optim} (A : Type) : Type := world -> world * result A.

#[export] Instance result_ret : MRet result := fun A a => Ok a.
#[export] Instance result_bind : MBind result := fun A B f r => rbind r f.

#[export] Instance M_ret `{Optim} : MRet M := fun A a w => (w, Ok a).
#[export] Instance M_bind `{Optim} : MBind M :=
  fun A B f m w =>
    match m w with
    | (w', Ok a) => f a w'
    | (w', Raise e) => (w', Raise e)
    end.

Definition lift `{Optim} {A} (r : result A) : M A := fun w => (w, r).

Definition emit `{Optim} (e : event) (w : world) : world :=
  {| w_model := w_model w; w_training := w_training w; w_grad := w_grad w;
     w_optimizer := w_optimizer w; w_grad_enabled := w_grad_enabled w;
     w_seed := w_seed w; w_log := w_log w ++ [e] |}.

Definition set_training `{Optim} (b : bool) (w : world) : world :=
  {| w_model := w_model w; w_training := b; w_grad := w_grad w;
     w_optimizer := w_optimizer w; w_grad_enabled := w_grad_enabled w;
     w_seed := w_seed w; w_log := w_log w |}.

Definition set_grad_enabled `{Optim} (b : bool) (w : world) : world :=
  {| w_model := w_model w; w_training := w_training w; w_grad := w_grad w;
     w_optimizer := w_optimizer w; w_grad_enabled := b;
     w_seed := w_seed w; w_log := w_log w |}.

Definition set_seed `{Optim} (s : Seed) (w : world) : world :=
  {| w_model := w_model w; w_training := w_training w; w_grad := w_grad w;
     w_optimizer := w_optimizer w; w_grad_enabled := w_grad_enabled w;
     w_seed := s; w_log := w_log w |}.

Definition set_grad `{Optim} (g : Grads) (w : world) : world :=
  {| w_model := w_model w; w_training := w_training w; w_grad := g;
     w_optimizer := w_optimizer w; w_grad_enabled := w_grad_enabled w;
     w_seed := w_seed w; w_log := w_log w |}.

Definition set_optimizer `{Optim} (o : OptState) (w : world) : world :=
  {| w_model := w_model w; w_training := w_training w; w_grad := w_grad w;
     w_optimizer := o; w_grad_enabled := w_grad_enabled w;
     w_seed := w_seed w; w_log := w_log w |}.

Definition set_model `{Optim} (m : BertForToxicComment) (w : world) : world :=
  {| w_model := m; w_training := w_training w; w_grad := w_grad w;
     w_optimizer := w_optimizer w; w_grad_enabled := w_grad_enabled w;
     w_seed := w_seed w; w_log := w_log w |}.

(** [model.train()] *)
Definition model_train `{Optim} : M unit :=
  fun w => (emit CallModelTrain (set_training true w), Ok tt).

(** [model.eval()] *)
Definition model_eval `{Optim} : M unit :=
  fun w => (emit CallModelEval (set_training false w), Ok tt).

(** [model(input_ids, attention_mask, token_type_ids)]: the forward pass
    in the current mode. In training mode the dropout layers consume
    random draws. *)
Definition model_call `{Optim} (input_ids attention_mask token_type_ids : list (list Z))
  : M Logits :=
  fun w =>
    let training := w_training w in
    let seed := w_seed w in
    let run := fun m => forward m training seed input_ids attention_mask token_type_ids in
    let w1 := emit (CallForward training (w_grad_enabled w)) w in
    let w2 := if training then set_seed (next_seed seed) w1 else w1 in
    (w2, Ok {| logits_values := run (w_model w);
               logits_graph := if w_grad_enabled w then Some run else None |}).

(** [criterion(outputs, targets)] *)
Definition criterion_call `{Optim} (criterion : Criterion) (outputs : Logits)
    (targets : list (list Z)) : M Loss :=
  fun w =>
    (emit CallCriterion w,
     Ok {| loss_item := criterion (logits_values outputs) targets;
           loss_graph := (fun run m => criterion (run m) targets) <$> logits_graph outputs |}).

(** [optimizer.zero_grad()] *)
Definition optimizer_zero_grad `{Optim} : M unit :=
  fun w => (emit CallZeroGrad (set_grad (zero_grad (w_grad w)) w), Ok tt).

(** [loss.backward()]: [RuntimeError] for a loss computed while gradients
    were not recorded. *)
Definition loss_backward `{Optim} (loss : Loss) : M unit :=
  fun w =>
    match loss_graph loss with
    | Some f =>
        (emit CallBackward (set_grad (autograd_backward f (w_model w) (w_grad w)) w), Ok tt)
    | None => (emit CallBackward w, Raise RuntimeError)
    end.

(** [torch.nn.utils.clip_grad_norm_(model.parameters(), max_norm)] *)
Definition clip_grad_norm_ `{Optim} (max_norm : Q) : M unit :=
  fun w => (emit (CallClipGradNorm max_norm) (set_grad (clip_grad_norm max_norm (w_grad w)) w),
            Ok tt).

(** [optimizer.step()] *)
Definition optimizer_step `{Optim} : M unit :=
  fun w =>
    let '(o, m) := adamw_step (w_optimizer w) (w_model w) (w_grad w) in
    (emit CallOptimizerStep (set_model m (set_optimizer o w)), Ok tt).

(** [scheduler.step()] *)
Definition scheduler_step `{Optim} : M unit :=
  fun w => (emit CallSchedulerStep (set_optimizer (lr_scheduler_step (w_optimizer w)) w), Ok tt).

(** [with torch.no_grad(): body]: gradient recording is switched off for
    [body] and set back afterwards, also when [body] raises. *)
Definition no_grad `{Optim} {A} (body : M A) : M A :=
  fun w =>
    let prev := w_grad_enabled w in
    let '(w', r) := body (set_grad_enabled false w) in
    (set_grad_enabled prev w', r).

(** [for x in xs: acc = body(acc, x)] *)
Fixpoint for_loop `{Optim} {A S} (xs : list A) (acc : S) (body : S -> A -> M S) : M S :=
  match xs with
  | [] => mret acc
  | x :: xs' => acc' ← body acc x; for_loop xs' acc' body
  end.

(** [total / n] for a float (or the integer 0) and an integer. *)
Definition truediv `{Optim} (total : Q) (n : nat) : M Q :=
  if n =? 0 then lift (Raise ZeroDivisionError)
  else mret (total / inject_Z (Z.of_nat n))%Q.

(** [tensor.to(device)] moves the tensor and keeps its values. *)
Definition to_device {A} (t : A) : A := t.

(** ** Cell 12: [train_epoch] *)

(** [tqdm(iterable)] yields the items of [iterable] and draws a progress
    bar. *)
Definition tqdm {A} (iterable : list A) : list A := iterable.

(** [train_epoch(model, data_loader, criterion, optimizer, device,
    scheduler=None)]. The model and the optimizer are the ones of the
    state; [data_loader] is the sequence of batches it yields, whose
    length is [len(data_loader)]; [device] only says where tensors
    live. *)
Definition train_epoch `{Optim} (data_loader : list Batch) (criterion : Criterion)
    (scheduler : option Scheduler) : M Q :=
  _ ← model_train;
  total_loss ← for_loop (tqdm data_loader) 0%Q (fun total_loss batch =>
    let input_ids := to_device (b_input_ids batch) in
    let attention_mask := to_device (b_attention_mask batch) in
    let token_type_ids := to_device (b_token_type_ids batch) in
    let targets := to_device (b_targets batch) in
    outputs ← model_call input_ids attention_mask token_type_ids;
    loss ← criterion_call criterion outputs targets;
    _ ← optimizer_zero_grad;
    _ ← loss_backward loss;
    _ ← clip_grad_norm_ 1;
    _ ← optimizer_step;
    _ ← match scheduler with
        | Some _ => scheduler_step
        | None => mret tt
        end;
    mret (total_loss + loss_item loss)%Q);
  truediv total_loss (length data_loader).

(** ** Cell 14: [eval_model] *)

(** [np.concatenate(arrays)]: [ValueError] for an empty list of arrays. *)
Definition np_concatenate {A} (arrays : list (list A)) : result (list A) :=
  match arrays with
  | [] => Raise ValueError
  | _ => Ok (concat arrays)
  end.

(** [a[:, i]] *)
Definition column {A} (i : nat) (a : list (list A)) : result (list A) :=
  rmapM (fun row => match row !! i with Some x => Ok x | None => Raise IndexError end) a.

(** The share of a (positive, negative) pair in the ranking score: one
    when the positive is scored higher, one half on a tie. *)
Definition pair_credit (p n : Q) : Q :=
  if Qeq_bool p n then (1 # 2)%Q
  else if Qle_bool p n then 0%Q else 1%Q.

Definition pair_credits (pos neg : list Q) : list Q :=
  flat_map (fun p => map (pair_credit p) neg) pos.

Definition auc (pos neg : list Q) : Q :=
  (Qsum (pair_credits pos neg) / inject_Z (Z.of_nat (length pos * length neg)))%Q.

(** The scores of the examples whose target is [c]. *)
Definition scores_of (c : Z) (y_true : list Z) (y_score : list Q) : list Q :=
  (filter (fun ys => ys.1 = c) (zip y_true y_score)).*2.

(** Modelled from the spec: [roc_auc_score] is scikit-learn's and is not
    in src/. Glossary: the probability that a randomly chosen positive
    example is scored higher than a randomly chosen negative one (the
    area under the ROC curve; tied pairs count one half). Section 7: a
    label with a single class signals a [ValueError]. The larger of the
    two classes is the positive one. *)
Definition roc_auc_score (y_true : list Z) (y_score : list Q) : result Q :=
  if negb (length y_true =? length y_score) then Raise ValueError
  else
    match remove_dups y_true with
    | [a; b] =>
        let positive := Z.max a b in
        let pos := scores_of positive y_true y_score in
        let neg := scores_of (Z.min a b) y_true y_score in
        Ok (auc pos neg)
    | _ => Raise ValueError
    end.

(** A value of the [roc_auc] dictionary: a float or a string. *)
Inductive pyscore : Type :=
| ScoreFloat (q : Q)
| ScoreStr (s : string).

Definition undefined_marker : string := "Undefined (only one class present)".

(** [try: body except ValueError: handler] *)
Definition try_except_ValueError {A} (body handler : result A) : result A :=
  match body with
  | Raise ValueError => handler
  | r => r
  end.

(** The loop over [enumerate(labels)], from position [i] on. *)
Fixpoint roc_auc_loop (i : nat) (names : list string)
    (all_targets : list (list Z)) (all_outputs : list (list Q))
    (roc_auc : gmap string pyscore) : result (gmap string pyscore) :=
  match names with
  | [] => Ok roc_auc
  | label :: names' =>
      roc_auc' ← try_except_ValueError
                    (y_true ← column i all_targets;
                     y_score ← column i all_outputs;
                     score ← roc_auc_score y_true y_score;
                     Ok (<[label := ScoreFloat score]> roc_auc))
                    (Ok (<[label := ScoreStr undefined_marker]> roc_auc));
      roc_auc_loop (S i) names' all_targets all_outputs roc_auc'
  end.

(** [eval_model(model, data_loader, criterion, device)], with the
    conventions of [train_epoch]. *)
Definition eval_model `{Optim} (data_loader : list Batch) (criterion : Criterion)
  : M (Q * gmap string pyscore) :=
  _ ← model_eval;
  let total_loss := 0%Q in
  let all_targets := [] in
  let all_outputs := [] in
  '(total_loss, all_targets, all_outputs) ←
    no_grad (for_loop data_loader (total_loss, all_targets, all_outputs)
      (fun '(total_loss, all_targets, all_outputs) batch =>
        let input_ids := to_device (b_input_ids batch) in
        let attention_mask := to_device (b_attention_mask batch) in
        let token_type_ids := to_device (b_token_type_ids batch) in
        let targets := to_device (b_targets batch) in
        outputs ← model_call input_ids attention_mask token_type_ids;
        loss ← criterion_call criterion outputs targets;
        mret ((total_loss + loss_item loss)%Q,
              all_targets ++ [targets],
              all_outputs ++ [map (map sigmoid) (logits_values outputs)])));
  avg_loss ← truediv total_loss (length data_loader);
  all_targets ← lift (np_concatenate all_targets);
  all_outputs ← lift (np_concatenate all_outputs);
  roc_auc ← lift (roc_auc_loop 0 labels all_targets all_outputs ∅);
  mret (avg_loss, roc_auc).

(** ** The training and evaluation loops, step by step

    Section 4.6 and 4.7 of the specification, written as functions on
    the state; the theorems compare them with [train_epoch] and
    [eval_model]. *)

(** The library calls of one training step, in order. *)
Definition step_events (scheduler : option Scheduler) : list event :=
  [CallForward true true; CallCriterion; CallZeroGrad; CallBackward;
   CallClipGradNorm 1; CallOptimizerStep]
  ++ match scheduler with
     | Some _ => [CallSchedulerStep]
     | None => []
     end.

(** One training step on a batch: the state after it and the loss of
    the batch. *)
Definition train_step `{Optim} (criterion : Criterion) (scheduler : option Scheduler)
    (w : world) (batch : Batch) : world * Q :=
  let run := fun m =>
    forward m true (w_seed w)
      (b_input_ids batch) (b_attention_mask batch) (b_token_type_ids batch) in
  (* 1. logits *)
  let logits := run (w_model w) in
  (* 2. loss *)
  let loss := criterion logits (b_targets batch) in
  (* 3. clear the accumulated gradients *)
  let g0 := zero_grad (w_grad w) in
  (* 4. back-propagate *)
  let g1 := autograd_backward (fun m => criterion (run m) (b_targets batch)) (w_model w) g0 in
  (* 5. clip the gradient norm to 1 *)
  let g2 := clip_grad_norm 1 g1 in
  (* 6. optimizer step *)
  let '(o1, m1) := adamw_step (w_optimizer w) (w_model w) g2 in
  (* 7. scheduler step, when there is a scheduler *)
  let o2 := match scheduler with
            | Some _ => lr_scheduler_step o1
            | None => o1
            end in
  ({| w_model := m1; w_training := true; w_grad := g2; w_optimizer := o2;
      w_grad_enabled := true; w_seed := next_seed (w_seed w);
      w_log := w_log w ++ step_events scheduler |},
   loss).

Fixpoint train_steps `{Optim} (criterion : Criterion) (scheduler : option Scheduler)
    (w : world) (batches : list Batch) : world * list Q :=
  match batches with
  | [] => (w, [])
  | batch :: batches' =>
      let '(w1, loss) := train_step criterion scheduler w batch in
      let '(w2, losses) := train_steps criterion scheduler w1 batches' in
      (w2, loss :: losses)
  end.

Definition arithmetic_mean (xs : list Q) : Q :=
  (Qsum xs / inject_Z (Z.of_nat (length xs)))%Q.

(** The logits of a batch in evaluation mode. *)
Definition eval_logits `{Optim} (w : world) (batch : Batch) : list (list Q) :=
  forward (w_model w) false (w_seed w)
    (b_input_ids batch) (b_attention_mask batch) (b_token_type_ids batch).

(** The library calls of one evaluation step. *)
Definition eval_events : list event := [CallForward false false; CallCriterion].

(** Column [i] of the targets of the whole traversal. *)
Definition label_targets (i : nat) (data_loader : list Batch) : list Z :=
  concat (map (fun batch => map (fun row => nth i row 0%Z) (b_targets batch)) data_loader).

(** The state after [eval_model]: the mode is switched to evaluation
    and the calls are logged; the rest is as before. *)
Definition eval_world `{Optim} (w : world) (data_loader : list Batch) : world :=
  {| w_model := w_model w; w_training := false; w_grad := w_grad w;
     w_optimizer := w_optimizer w; w_grad_enabled := w_grad_enabled w;
     w_seed := w_seed w;
     w_log := w_log w ++ CallModelEval :: concat (map (fun _ => eval_events) data_loader) |}.

(** What [eval_model] reports: the mean loss and the score of every
    label, from the logits of the batches in evaluation mode. *)
Definition eval_report `{Optim} (data_loader : list Batch) (criterion : Criterion)
    (w : world) : result (Q * gmap string pyscore) :=
  let w := eval_world w data_loader in
  let losses := map (fun batch => criterion (eval_logits w batch) (b_targets batch)) data_loader in
  let all_targets := map b_targets data_loader in
  let all_outputs := map (fun batch => map (map sigmoid) (eval_logits w batch)) data_loader in
  match data_loader with
  | [] => Raise ZeroDivisionError
  | _ =>
      all_targets ← np_concatenate all_targets;
      all_outputs ← np_concatenate all_outputs;
      roc_auc ← roc_auc_loop 0 labels all_targets all_outputs ∅;
      Ok ((fold_left Qplus losses 0 / inject_Z (Z.of_nat (length data_loader)))%Q, roc_auc)
  end.

(** A batch as section 3 has it: every field has one row per example,
    and a row of targets has six entries, each 0 or 1. *)
Definition batch_ok (batch : Batch) : Prop :=
  length (b_input_ids batch) = length (b_targets batch)
  /\ Forall (fun row => length row = 6 /\ Forall (fun t => t = 0%Z \/ t = 1%Z) row)
       (b_targets batch).

(** ** Stand-ins for the imported libraries

    Small implementations of the interfaces above, on which the
    definitions can be run. *)

Definition toy_random : Random := {|
  np_permutation := fun seed n => rotate (Z.to_nat (Z.abs seed)) (seq 0 n);
  Generator := nat;
  torch_randperm := fun g n => (rotate g (seq 0 n), S g)
|}.

(** A tokenizer that takes the code points as ids, cut or padded with
    zeros to [max_length]. *)
Definition char_tokenizer : Tokenizer :=
  fun text kw =>
    let n := max_length kw in
    let ids := take n (map Z.of_N text) in
    {| input_ids := ids ++ replicate (n - length ids) 0%Z;
       attention_mask := replicate (length ids) 1%Z ++ replicate (n - length ids) 0%Z;
       token_type_ids := replicate n 0%Z |}.

Definition sample_row (text : string) (toxic severe_toxic obscene threat insult identity_hate : Z)
  : Row :=
  {| comment_text := str_of text;
     int_columns :=
       list_to_map [("toxic", toxic); ("severe_toxic", severe_toxic);
                    ("obscene", obscene); ("threat", threat);
                    ("insult", insult); ("identity_hate", identity_hate)]%string |}.

Definition sample_df : list Row :=
  [ sample_row "thank you for the edit" 0 0 0 0 0 0;
    sample_row "you are an idiot" 1 0 1 0 1 0;
    sample_row "see the talk page" 0 0 0 0 0 0 ].

Definition sample_dataset : ToxicCommentsDataset := make_dataset sample_df char_tokenizer.

Definition toy_encoder : Encoder := {|
  BertParams := Q;
  Seed := nat;
  bert_pooler_output := fun p training seed ids mask types =>
    map (fun row => [(p * inject_Z (foldr Z.add 0%Z row))%Q; 1%Q]) ids;
  dropout_keep := fun seed k j => Nat.even (seed + k + j);
  next_seed := S;
  log_sigmoid := fun x => (- (1 + Qabs x))%Q;
  sigmoid := fun x => ((1 # 2) + x / (2 * (1 + Qabs x)))%Q
|}.

Definition toy_model (b : Q) (weight : list (list Q)) (bias : list Q)
  : @BertForToxicComment toy_encoder :=
  @Build_BertForToxicComment toy_encoder b weight bias.

Definition toy_optim : @Optim toy_encoder := {|
  Grads := Q;
  OptState := Q;
  autograd_backward := fun f m g =>
    (g + (f (toy_model (@bert toy_encoder m + 1) (out_weight m) (out_bias m)) - f m))%Q;
  zero_grad := fun _ => 0%Q;
  clip_grad_norm := fun c g => Qmax (- c) (Qmin c g);
  adamw_step := fun lr m g =>
    (lr, toy_model (@bert toy_encoder m - lr * g) (out_weight m) (out_bias m));
  lr_scheduler_step := fun lr => (lr * (1 # 2))%Q
|}.

Definition sample_model : @BertForToxicComment toy_encoder :=
  toy_model (1 # 1000)
    [[1; 0]; [0; 1]; [1; 1]; [-1; 0]; [0; -1]; [1; -1]]%Q
    [0; 0; (1 # 2); 0; 0; 0]%Q.

Definition sample_world : @world toy_encoder toy_optim :=
  @Build_world toy_encoder toy_optim
    sample_model false 0%Q (1 # 100)%Q true 0 [].

(** The example of a sample row as [__getitem__] is written to build
    it: the encoding of the comment and the cells of the named label
    columns. *)
Definition sample_example (columns : list string) (row : Row) : EncodedExample :=
  let inputs := char_tokenizer (comment_text row)
                  {| add_special_tokens := true;
                     max_length := MAX_LEN;
                     padding := PadMaxLength;
                     truncation := true;
                     return_token_type_ids := true |} in
  {| ex_input_ids := input_ids inputs;
     ex_attention_mask := attention_mask inputs;
     ex_token_type_ids := token_type_ids inputs;
     ex_targets := match select_columns row columns with
                   | Ok cells => cells
                   | Raise _ => []
                   end |}.

(** Two batches over the three rows of [sample_df], of two rows and of
    one. *)
Definition sample_batches (columns : list string) : list Batch :=
  [ collate (map (sample_example columns) (take 2 sample_df));
    collate (map (sample_example columns) (drop 2 sample_df)) ].

Definition sample_loader : list Batch := sample_batches labels.

(** ** The cells around the functions *)

(** A character of [a-z0-9 ]: what a cleaned comment is made of. *)
Definition clean_char (c : N) : bool :=
  ((97 <=? c) && (c <=? 122))%N || ((48 <=? c) && (c <=? 57))%N || (c =? 32)%N.

(** What [clean_text] leaves of one space character between two pieces
    of text: a space for a space or a newline, nothing for the others
    (tab, carriage return, ...). *)
Definition separator (c : N) : pystr :=
  if ((c =? 32) || (c =? 10))%N then [32%N] else [].

(** Cell 11: [total_steps = len(train_loader) * 3], the number of steps
    the schedule is built for. *)
Definition total_steps (len_train_loader : nat) : nat := len_train_loader * 3.

(** Cell 13: [EPOCHS = 1] and the loop over the epochs; the value is the
    last [train_loss]. The loop passes the scheduler of cell 11. *)
Definition EPOCHS : nat := 1.

Definition train_epochs `{Optim} (train_loader : list Batch) (criterion : Criterion)
    (scheduler : Scheduler) : M (option Q) :=
  for_loop (seq 0 EPOCHS) None (fun _ epoch =>
    train_loss ← train_epoch train_loader criterion (Some scheduler);
    mret (Some train_loss)).

Definition is_scheduler_step (e : event) : bool :=
  match e with
  | CallSchedulerStep => true
  | _ => false
  end.

Definition is_optimizer_step (e : event) : bool :=
  match e with
  | CallOptimizerStep => true
  | _ => false
  end.

(** A row of the frame that lacks the column [obscene]. *)
Definition short_row : Row :=
  {| comment_text := str_of "no such column";
     int_columns := list_to_map [("toxic", 0%Z); ("severe_toxic", 0%Z)]%string |}.

(** A loader and a model for three of the labels. *)
Definition three_labels : list string := ["toxic"; "obscene"; "insult"]%string.

Definition three_label_loader : list Batch := sample_batches three_labels.

Definition three_label_world : @world toy_encoder toy_optim :=
  @Build_world toy_encoder toy_optim
    (toy_model (1 # 1000) [[1; 0]; [0; 1]; [1; 1]]%Q [0; 0; (1 # 2)]%Q)
    false 0%Q (1 # 100)%Q true 0 [].

(** * Properties *)

(** ** Text cleaning *)

(** Turns the boolean range tests on code points among the hypotheses
    into inequalities. *)
Ltac N_bounds :=
  repeat match goal with
         | H : (_ && _) = true |- _ => apply andb_prop in H as [? ?]
         | H : (_ && _) = false |- _ => apply andb_false_iff in H as [H|H]
         | H : (_ <=? _)%N = true |- _ => apply N.leb_le in H
         | H : (_ <=? _)%N = false |- _ => apply N.leb_gt in H
         end.

Section TextCleaner.

Local Open Scope N_scope.

Lemma match_here_nil s : Re.match_here [] s = Some 0%nat.
Proof. reflexivity. Qed.

Lemma match_here_one a p c s :
  Re.match_here (Re.One a :: p) (c :: s)
  = if Re.atom_matches a c then S <$> Re.match_here p s else None.
Proof. reflexivity. Qed.

Lemma match_here_plus a p c s :
  Re.match_here (Re.Plus a :: p) (c :: s)
  = if Re.atom_matches a c then
      match Re.match_here (Re.Plus a :: p) s with
      | Some n => Some (S n)
      | None => S <$> Re.match_here p s
      end
    else None.
Proof. reflexivity. Qed.

Lemma match_here_empty a p : Re.match_here (a :: p) [] = None.
Proof. destruct a; reflexivity. Qed.

Lemma sub_from_skip p repl k s :
  Re.sub_from p repl k s = Re.sub_from p repl 0 (drop k s).
Proof.
  revert k; induction s as [|c s IH]; intros [|k]; simpl; try reflexivity.
  apply IH.
Qed.

Lemma sub_from_cons p repl c s :
  Re.sub_from p repl 0 (c :: s)
  = match Re.match_here p (c :: s) with
    | Some (S k) => repl ++ Re.sub_from p repl 0 (drop k s)
    | _ => c :: Re.sub_from p repl 0 s
    end.
Proof.
  cbn [Re.sub_from]. destruct (Re.match_here p (c :: s)) as [[|k]|]; try reflexivity.
  now rewrite sub_from_skip.
Qed.

(** The newline pattern matches exactly one newline. *)
Lemma sub_newline s :
  Re.sub newline_pattern [32] s = map newline_to_space s.
Proof.
  unfold Re.sub. induction s as [|c s IH]; [reflexivity|].
  rewrite sub_from_cons.
  replace (Re.match_here newline_pattern (c :: s))
    with (if c =? 10 then Some 1%nat else None)
    by (unfold newline_pattern; rewrite match_here_one, match_here_nil;
        cbn [Re.atom_matches]; now destruct (c =? 10)).
  cbn [map]. unfold newline_to_space at 1.
  destruct (c =? 10); rewrite ?drop_0; cbn [app]; now rewrite IH.
Qed.

(** A match of [[^A-Za-z0-9 ]+] covers only characters outside the set. *)
Lemma match_special_run s n :
  Re.match_here special_pattern s = Some n ->
  exists k, n = S k /\ List.filter keep_char (take n s) = [].
Proof.
  unfold special_pattern.
  revert n; induction s as [|c s IH]; intros n.
  - rewrite match_here_empty. discriminate.
  - rewrite match_here_plus, match_here_nil. cbn [Re.atom_matches].
    fold (keep_char c).
    destruct (keep_char c) eqn:Hc; cbn [negb]; [discriminate|].
    destruct (Re.match_here [Re.Plus (Re.NotIn keep_ranges)] s) as [m|] eqn:Hm.
    + intros [= <-]. destruct (IH m eq_refl) as (k & -> & Hk).
      exists (S k). split; [reflexivity|].
      change (take (S (S k)) (c :: s)) with (c :: take (S k) s).
      cbn [List.filter]. rewrite Hc. exact Hk.
    + cbn. intros [= <-]. exists 0%nat. split; [reflexivity|].
      change (take 1 (c :: s)) with [c]. cbn [List.filter]. now rewrite Hc.
Qed.

Lemma match_special_keep c s :
  keep_char c = true -> Re.match_here special_pattern (c :: s) = None.
Proof.
  intros Hc. unfold special_pattern. rewrite match_here_plus.
  cbn [Re.atom_matches]. fold (keep_char c). now rewrite Hc.
Qed.

Lemma match_special_drop c s :
  keep_char c = false -> exists k, Re.match_here special_pattern (c :: s) = Some (S k).
Proof.
  intros Hc. unfold special_pattern. rewrite match_here_plus, match_here_nil.
  cbn [Re.atom_matches]. fold (keep_char c). rewrite Hc. cbn [negb].
  destruct (Re.match_here _ s); eauto.
Qed.

Lemma filter_take_drop {A} (f : A -> bool) k (s : list A) :
  List.filter f (take k s) = [] -> List.filter f (drop k s) = List.filter f s.
Proof.
  intros H. rewrite <- (take_drop k s) at 2.
  now rewrite List.filter_app, H.
Qed.

Lemma sub_special s :
  Re.sub special_pattern [] s = List.filter keep_char s.
Proof.
  unfold Re.sub.
  remember (length s) as n eqn:Hn.
  revert s Hn. induction n as [n IH] using lt_wf_ind. intros s Hn.
  destruct s as [|c s]; [reflexivity|].
  rewrite sub_from_cons.
  destruct (keep_char c) eqn:Hc.
  - rewrite (match_special_keep c s Hc). cbn [List.filter]. rewrite Hc.
    f_equal. apply (IH (length s)); [simpl in Hn; lia|reflexivity].
  - destruct (match_special_drop c s Hc) as [k Hk]. rewrite Hk.
    apply match_special_run in Hk as (k' & [= <-] & Hf).
    cbn [app].
    rewrite (IH (length (drop k s))); [|simpl in Hn; rewrite length_drop; lia|reflexivity].
    rewrite <- (filter_take_drop keep_char (S k) (c :: s) Hf).
    reflexivity.
Qed.

Lemma match_nonspace_run p s :
  p = [Re.Plus Re.NonSpace] ->
  Re.match_here p s
  = match prefix_length nonspace s with
    | O => None
    | S n => Some (S n)
    end.
Proof.
  intros ->. induction s as [|c s IH]; [reflexivity|].
  rewrite match_here_plus, match_here_nil, IH.
  cbn [Re.atom_matches prefix_length]. unfold nonspace.
  destruct (negb (Re.is_space c)); [|reflexivity].
  now destruct (prefix_length _ s).
Qed.

Lemma drop_while_prefix {A} (f : A -> bool) (l : list A) :
  drop_while f l = drop (prefix_length f l) l.
Proof.
  induction l as [|x l IH]; [reflexivity|].
  cbn [drop_while prefix_length]. now destruct (f x).
Qed.

Lemma match_url s :
  Re.match_here url_pattern s
  = if starts_url s
    then Some (4 + prefix_length nonspace (drop 4 s))%nat
    else None.
Proof.
  unfold url_pattern.
  destruct s as [|h [|t1 [|t2 [|p' s]]]];
    repeat (rewrite ?match_here_one, ?match_here_empty; cbn [Re.atom_matches starts_url];
            try match goal with
                | |- context [(?x =? ?y)] => destruct (x =? y)
                end; cbn [fmap option_fmap option_map andb]); try reflexivity;
    try (now destruct s).
  change (drop 4 (h :: t1 :: t2 :: p' :: s)) with s.
  rewrite (match_nonspace_run _ s eq_refl).
  destruct s as [|c s]; [reflexivity|].
  cbn [prefix_length]. unfold nonspace.
  destruct (negb (Re.is_space c)); reflexivity.
Qed.

Lemma sub_url_strip fuel s :
  (length s <= fuel)%nat ->
  Re.sub url_pattern [] s = strip_urls fuel s.
Proof.
  unfold Re.sub. revert s; induction fuel as [|fuel IH]; intros s Hlen.
  - destruct s; [reflexivity|simpl in Hlen; lia].
  - destruct s as [|c s]; [reflexivity|].
    rewrite sub_from_cons, match_url. cbn [strip_urls].
    destruct (starts_url (c :: s)) eqn:Hu.
    + cbn [app Nat.add]. rewrite drop_while_prefix.
      fold nonspace.
      set (r := prefix_length nonspace (drop 4 (c :: s))).
      change (drop 4 (c :: s)) with (drop 3 s).
      rewrite drop_drop.
      apply IH. rewrite length_drop. simpl in Hlen. lia.
    + f_equal. apply IH. simpl in Hlen. lia.
Qed.

Lemma lower_keep_char c :
  keep_char c = true ->
  (97 <= lower_char c <= 122) \/ (48 <= lower_char c <= 57) \/ lower_char c = 32.
Proof.
  unfold keep_char, keep_ranges, lower_char, Re.in_range. cbn [existsb fst snd].
  intros H. destruct ((65 <=? c) && (c <=? 90)) eqn:E;
    repeat (apply orb_prop in H as [H|H]); try discriminate;
    N_bounds; lia.
Qed.

Example clean_text_url_in_sentence :
  clean_text (PyStr (str_of "see https://a.b/c?d=1 ok")) = Ok (str_of "see  ok").
Proof. vm_compute. reflexivity. Qed.

(** "http" with nothing after it is no match: the pattern asks for one
    more character that is not a space. *)
Example clean_text_http_alone :
  clean_text (PyStr (str_of "http")) = Ok (str_of "http").
Proof. vm_compute. reflexivity. Qed.

(** A letter outside ASCII (here U+00E9) is dropped, not lowered. *)
Example clean_text_non_ascii :
  clean_text (PyStr [72; 233; 108; 108; 111]%N) = Ok (str_of "hllo").
Proof. vm_compute. reflexivity. Qed.

(** C4. [clean_text] maps "Visit http://x.com NOW!!" to "visit  now"
    (two spaces). On every string it first drops each substring made
    of "http" and the non-space characters that follow it, then turns
    each newline into one space, then keeps only the characters of
    [A-Za-z0-9 ], then lowers the letters, so that the result holds
    only [a-z], [0-9] and spaces. *)
Theorem clean_text_steps :
  clean_text (PyStr (str_of "Visit http://x.com NOW!!")) = Ok (str_of "visit  now")
  /\ (forall s : pystr,
        clean_text (PyStr s)
        = Ok (lower (List.filter keep_char
                       (map newline_to_space (strip_urls (length s) s)))))
  /\ (forall (s out : pystr) (c : N),
        clean_text (PyStr s) = Ok out -> c ∈ out ->
        (97 <= c <= 122) \/ (48 <= c <= 57) \/ c = 32).
Proof.
  assert (Hsteps : forall s : pystr,
             clean_text (PyStr s)
             = Ok (lower (List.filter keep_char
                            (map newline_to_space (strip_urls (length s) s))))).
  { intros s. unfold clean_text, re_sub. cbn [rbind].
    now rewrite (sub_url_strip (length s) s (le_n _)), sub_newline, sub_special. }
  split; [vm_compute; reflexivity|]. split; [exact Hsteps|].
  intros s out c Hout Hc. rewrite Hsteps in Hout. injection Hout as <-.
  unfold lower in Hc. apply list_elem_of_fmap in Hc as (d & -> & Hd).
  apply lower_keep_char.
  apply list_elem_of_In, List.filter_In in Hd. tauto.
Qed.

End TextCleaner.

(** ** String coercion before cleaning *)

Section Coercion.





Example clean_column_mixed_cells :
  clean_column false [PyStr (str_of "Hi!"); PyNaN; PyInt 42; PyNone]
  = Ok [str_of "hi"; str_of "nan"; str_of "42"; str_of "none"]
  /\ clean_column true [PyStr (str_of "Hi!"); PyNaN; PyInt 42; PyNone]
     = Raise TypeError
  /\ clean_column true [PyStr (str_of "Hi!"); PyInt 42; PyBool true]
     = Ok [str_of "hi"; str_of "42"; str_of "true"].
Proof. repeat split; vm_compute; reflexivity. Qed.



End Coercion.

(** ** Binary floating point *)

Section Binary64.










End Binary64.

(** ** Train-validation split *)

Section Split.



Lemma rmapM_Forall2 {A B} (f : A -> result B) (l : list A) ys :
  rmapM f l = Ok ys -> Forall2 (fun x y => f x = Ok y) l ys.
Proof.
  revert ys; induction l as [|x l IH]; intros ys; cbn [rmapM].
  - intros [= <-]. constructor.
  - destruct (f x) as [y|] eqn:Hx; cbn [rbind]; [|discriminate].
    destruct (rmapM f l) as [ys'|]; cbn [rbind]; [|discriminate].
    intros [= <-]. constructor; [exact Hx|now apply IH].
Qed.




Context `{R : Random} {RS : RandomSpec R}.






(** The count is the binary64 product rounded up: for the float 0.1
    and ten rows the product rounds to 1, for the float 0.07 and a
    hundred rows to a number above 7. *)
Example validate_shuffle_split_10 :
  validate_shuffle_split 10 TEST_SIZE = Ok (9, 1).
Proof. vm_compute. reflexivity. Qed.

Example validate_shuffle_split_100 :
  validate_shuffle_split 100 (binary64 (7 # 100)) = Ok (92, 8).
Proof. vm_compute. reflexivity. Qed.

Example validate_shuffle_split_1 :
  validate_shuffle_split 1 TEST_SIZE = Raise ValueError.
Proof. vm_compute. reflexivity. Qed.



End Split.

Lemma rotate_seq_Permutation k n : rotate k (seq 0 n) ≡ₚ seq 0 n.
Proof.
  unfold rotate. rewrite Permutation_app_comm. now rewrite take_drop.
Qed.

Lemma toy_random_spec : RandomSpec toy_random.
Proof.
  split; intros; cbn; apply rotate_seq_Permutation.
Qed.



(** ** The dataset *)

Section Dataset.

Lemma iloc_in_range (df : list Row) (index : Z) :
  (0 <= index < Z.of_nat (length df))%Z ->
  exists row, iloc df index = Ok row /\ df !! Z.to_nat index = Some row.
Proof.
  intros H. unfold iloc.
  destruct (index <? 0)%Z eqn:E; [apply Z.ltb_lt in E; lia|].
  replace ((0 <=? index)%Z && (index <? Z.of_nat (length df))%Z) with true
    by (symmetry; apply andb_true_intro; split; [apply Z.leb_le|apply Z.ltb_lt]; lia).
  destruct (lookup_lt_is_Some_2 df (Z.to_nat index)) as [row Hrow]; [lia|].
  rewrite Hrow. eauto.
Qed.

Lemma iloc_negative (df : list Row) (index : Z) :
  (- Z.of_nat (length df) <= index < 0)%Z ->
  iloc df index = iloc df (index + Z.of_nat (length df)).
Proof.
  intros H. unfold iloc.
  destruct (index <? 0)%Z eqn:E; [|apply Z.ltb_ge in E; lia].
  destruct (index + Z.of_nat (length df) <? 0)%Z eqn:E'; [apply Z.ltb_lt in E'; lia|].
  reflexivity.
Qed.

Lemma iloc_out_of_range (df : list Row) (index : Z) :
  (index < - Z.of_nat (length df) \/ Z.of_nat (length df) <= index)%Z ->
  iloc df index = Raise IndexError.
Proof.
  intros H. unfold iloc.
  destruct (index <? 0)%Z eqn:E.
  - apply Z.ltb_lt in E.
    destruct (0 <=? index + Z.of_nat (length df))%Z eqn:E1; [|reflexivity].
    apply Z.leb_le in E1. lia.
  - apply Z.ltb_ge in E.
    destruct (index <? Z.of_nat (length df))%Z eqn:E1.
    + apply Z.ltb_lt in E1. lia.
    + now rewrite andb_false_r.
Qed.

(** A row that [iloc] returns is a row of the frame. *)
Lemma iloc_elem_of (df : list Row) (index : Z) (row : Row) :
  iloc df index = Ok row -> row ∈ df.
Proof.
  unfold iloc. destruct (_ && _); [|discriminate].
  destruct (df !! _) as [row'|] eqn:Hrow; [|discriminate].
  intros [= <-]. eapply list_elem_of_lookup_2, Hrow.
Qed.

(** The cells [select_columns] returns are those of the named columns,
    in the order of the names. *)
Lemma select_columns_inv (row : Row) (columns : list string) (targets : list Z) :
  select_columns row columns = Ok targets ->
  Some <$> targets = (fun c => int_columns row !! c) <$> columns.
Proof.
  unfold select_columns. revert targets.
  induction columns as [|c columns IH]; intros targets; cbn [rmapM].
  - now intros [= <-].
  - destruct (int_columns row !! c) as [v|] eqn:Hv; cbn [rbind]; [|discriminate].
    destruct (rmapM _ columns) as [vs|]; cbn [rbind]; [|discriminate].
    intros [= <-]. cbn [fmap list_fmap]. rewrite Hv. f_equal. now apply IH.
Qed.

Lemma select_columns_total (row : Row) (columns : list string) :
  (forall c, c ∈ columns -> is_Some (int_columns row !! c)) ->
  exists targets, select_columns row columns = Ok targets.
Proof.
  unfold select_columns. induction columns as [|c columns IH]; intros H.
  - now exists [].
  - destruct (H c) as [v Hv]; [left|].
    destruct IH as (targets & Ht); [intros c' Hc'; apply H; now right|].
    exists (v :: targets). cbn [rmapM]. now rewrite Hv, Ht.
Qed.

(** [torch.tensor] refuses the values of a row: they are an array of
    dtype [object]. *)
Lemma torch_tensor_values (row : Row) (cells : list Z) :
  torch_tensor (values row cells) = Raise TypeError.
Proof. reflexivity. Qed.

Lemma iloc_accepts (df : list Row) (index : Z) :
  (- Z.of_nat (length df) <= index < Z.of_nat (length df))%Z ->
  exists row, iloc df index = Ok row.
Proof.
  intros H. destruct (Z_lt_le_dec index 0) as [Hneg|Hpos].
  - rewrite iloc_negative by lia.
    destruct (iloc_in_range df (index + Z.of_nat (length df))) as (row & Hrow & _);
      [lia|eauto].
  - destruct (iloc_in_range df index) as (row & Hrow & _); [lia|eauto].
Qed.

(** At a position [iloc] accepts, on a row that has the label columns,
    [__getitem__] reaches the conversion of the targets and raises
    [TypeError]. *)
Lemma getitem_accepted (self : ToxicCommentsDataset) (index : Z) (row : Row) :
  iloc (self_df self) index = Ok row ->
  (forall c, c ∈ self_labels self -> is_Some (int_columns row !! c)) ->
  __getitem__ self index = Raise TypeError.
Proof.
  intros Hrow Hcols. destruct (select_columns_total row _ Hcols) as [cells Hc].
  unfold __getitem__. rewrite Hrow. cbn [rbind]. rewrite Hc. reflexivity.
Qed.

(** [__getitem__] returns at no index. *)
Lemma getitem_no_example (self : ToxicCommentsDataset) (index : Z)
    (example : EncodedExample) :
  __getitem__ self index <> Ok example.
Proof.
  unfold __getitem__.
  destruct (iloc (self_df self) index) as [row|]; cbn [rbind]; [|discriminate].
  destruct (select_columns row (self_labels self)) as [cells|]; cbn [rbind];
    discriminate.
Qed.

Lemma getitem_out_of_range (self : ToxicCommentsDataset) (index : Z) :
  (index < - Z.of_nat (__len__ self) \/ Z.of_nat (__len__ self) <= index)%Z ->
  __getitem__ self index = Raise IndexError.
Proof.
  intros H. unfold __getitem__. now rewrite (iloc_out_of_range _ _ H).
Qed.

Lemma getitem_in_range (df : list Row) (tokenizer : Tokenizer) (index : Z) :
  Forall has_label_columns df ->
  (- Z.of_nat (length df) <= index < Z.of_nat (length df))%Z ->
  __getitem__ (make_dataset df tokenizer) index = Raise TypeError.
Proof.
  intros Hdf Hin. destruct (iloc_accepts df index Hin) as [row Hrow].
  apply (getitem_accepted (make_dataset df tokenizer) index row Hrow).
  rewrite Forall_forall in Hdf. apply Hdf. exact (iloc_elem_of _ _ _ Hrow).
Qed.

(** C6, as the code has it. For the dataset of cell 9, with a
    tokenizer that honours its contract and a frame whose rows have
    the six label columns, [__getitem__] returns no example at a
    valid index [0 <= index < size()]. It reads the six
    label cells of the row, in the order of [labels], and then raises
    [TypeError] when it converts them: the row of a frame that holds
    the comment next to the labels is an array of dtype [object]. *)
Theorem getitem_targets_type_error (df : list Row) (tokenizer : Tokenizer) (index : Z) :
  tokenizer_contract tokenizer ->
  Forall has_label_columns df ->
  (0 <= index < Z.of_nat (__len__ (make_dataset df tokenizer)))%Z ->
  __getitem__ (make_dataset df tokenizer) index = Raise TypeError
  /\ (forall example, __getitem__ (make_dataset df tokenizer) index <> Ok example)
  /\ exists row cells,
       iloc df index = Ok row
       /\ select_columns row labels = Ok cells
       /\ length cells = 6
       /\ torch_tensor (values row cells) = Raise TypeError.
Proof.
  intros _ Hdf Hin. unfold __len__ in Hin. cbn [self_df make_dataset] in Hin.
  split; [apply getitem_in_range; [exact Hdf|lia]|].
  split; [intros example; apply getitem_no_example|].
  destruct (iloc_accepts df index ltac:(lia)) as [row Hrow].
  destruct (select_columns_total row labels) as [cells Hcells].
  { rewrite Forall_forall in Hdf. apply Hdf. exact (iloc_elem_of _ _ _ Hrow). }
  exists row, cells. split; [exact Hrow|]. split; [exact Hcells|]. split; [|reflexivity].
  apply select_columns_inv in Hcells. apply (f_equal length) in Hcells.
  now rewrite !length_fmap in Hcells.
Qed.

(** C7, as the code has it. For the dataset of cell 9 on a frame
    whose rows have the six label columns, [__getitem__] raises
    [TypeError] at every index with [0 <= index < size()], where an
    example is expected, and at every negative index down to
    [-size()], which [iloc] counts from the end. For an index below
    [-size()] or from
    [size()] on it raises [IndexError], and the failure is not caught:
    it is the result of [__getitem__] and of fetching a batch that
    holds the index. *)
Theorem getitem_index_range_type_error (df : list Row) (tokenizer : Tokenizer)
    (index : Z) :
  Forall has_label_columns df ->
  ((0 <= index < Z.of_nat (__len__ (make_dataset df tokenizer)))%Z ->
     __getitem__ (make_dataset df tokenizer) index = Raise TypeError)
  /\ ((- Z.of_nat (__len__ (make_dataset df tokenizer)) <= index < 0)%Z ->
        __getitem__ (make_dataset df tokenizer) index = Raise TypeError)
  /\ ((index < - Z.of_nat (__len__ (make_dataset df tokenizer))
       \/ Z.of_nat (__len__ (make_dataset df tokenizer)) <= index)%Z ->
        __getitem__ (make_dataset df tokenizer) index = Raise IndexError)
  /\ (forall i : nat,
        __len__ (make_dataset df tokenizer) <= i ->
        fetch (make_dataset df tokenizer) [i] = Raise IndexError).
Proof.
  intros Hdf. unfold __len__. cbn [self_df make_dataset].
  split; [intros Hin; apply getitem_in_range; [exact Hdf|lia]|].
  split; [intros Hin; apply getitem_in_range; [exact Hdf|lia]|].
  split; [apply (getitem_out_of_range (make_dataset df tokenizer))|].
  intros i Hi. unfold fetch. cbn [rmapM].
  rewrite (getitem_out_of_range (make_dataset df tokenizer) (Z.of_nat i)); [reflexivity|].
  right. unfold __len__. cbn [self_df make_dataset]. lia.
Qed.

End Dataset.

Lemma char_tokenizer_contract : tokenizer_contract char_tokenizer.
Proof.
  intros text kw _ _. unfold char_tokenizer. cbn [input_ids attention_mask token_type_ids].
  rewrite !length_app, !length_replicate.
  assert (length (take (max_length kw) (map Z.of_N text)) <= max_length kw)
    by (rewrite length_take; lia).
  lia.
Qed.

Lemma sample_row_columns text a b c d e f :
  has_label_columns (sample_row text a b c d e f).
Proof.
  intros label Hl. unfold labels in Hl.
  repeat (apply elem_of_cons in Hl as [->|Hl]); try (eexists; vm_compute; reflexivity).
  now apply elem_of_nil in Hl.
Qed.

Lemma sample_df_columns : Forall has_label_columns sample_df.
Proof. repeat constructor; apply sample_row_columns. Qed.

(** The second sample row: its six label cells are read, and their
    conversion raises. *)
Lemma getitem_targets_type_error_witness :
  __getitem__ (make_dataset sample_df char_tokenizer) 1 = Raise TypeError
  /\ (forall example,
        __getitem__ (make_dataset sample_df char_tokenizer) 1 <> Ok example)
  /\ exists row cells,
       iloc sample_df 1 = Ok row
       /\ select_columns row labels = Ok cells
       /\ length cells = 6
       /\ torch_tensor (values row cells) = Raise TypeError.
Proof.
  apply (getitem_targets_type_error sample_df char_tokenizer 1
           char_tokenizer_contract sample_df_columns).
  vm_compute. split; [discriminate|reflexivity].
Defined.

(** Positions 0 and -1 of the three sample rows raise [TypeError];
    positions 3 and -4 are refused with [IndexError]. *)
Lemma getitem_index_range_type_error_witness :
  __getitem__ (make_dataset sample_df char_tokenizer) 0 = Raise TypeError
  /\ __getitem__ (make_dataset sample_df char_tokenizer) (-1) = Raise TypeError
  /\ __getitem__ (make_dataset sample_df char_tokenizer) 3 = Raise IndexError
  /\ __getitem__ (make_dataset sample_df char_tokenizer) (-4) = Raise IndexError.
Proof.
  split; [|split; [|split]].
  - apply (proj1 (getitem_index_range_type_error sample_df char_tokenizer 0
                    sample_df_columns)).
    vm_compute. split; [discriminate|reflexivity].
  - apply (proj1 (proj2 (getitem_index_range_type_error sample_df char_tokenizer (-1)
                           sample_df_columns))).
    vm_compute. split; [discriminate|reflexivity].
  - apply (proj1 (proj2 (proj2 (getitem_index_range_type_error sample_df char_tokenizer 3
                                  sample_df_columns)))).
    right. vm_compute. discriminate.
  - apply (proj1 (proj2 (proj2 (getitem_index_range_type_error sample_df char_tokenizer (-4)
                                  sample_df_columns)))).
    left. reflexivity.
Defined.

(** ** The data loader *)

Section Loader.

(** Batch [k] of a traversal of [total] indices holds
    [min batch_size (total - k * batch_size)] of them. *)
Lemma batch_sampler_sizes batch_size indices : forall batch,
  0 < batch_size -> length batch < batch_size ->
  forall k b,
    batch_sampler batch_size batch indices !! k = Some b ->
    k * batch_size < length batch + length indices
    /\ length b = Nat.min batch_size (length batch + length indices - k * batch_size).
Proof.
  induction indices as [|idx rest IH]; intros batch Hbs Hlt k b; cbn [batch_sampler].
  - destruct (0 <? length batch) eqn:E; [|intros H; now destruct k].
    apply Nat.ltb_lt in E. destruct k as [|k]; [|intros H; now destruct k].
    intros [= <-]. cbn [length]. lia.
  - destruct (length (batch ++ [idx]) =? batch_size) eqn:E.
    + apply Nat.eqb_eq in E. rewrite length_app in E. cbn [length] in *.
      destruct k as [|k].
      * intros [= <-]. rewrite length_app. cbn [length]. lia.
      * cbn [lookup list_lookup]. intros H.
        destruct (IH [] Hbs Hbs k b H) as (H1 & H2). cbn [length] in H1, H2.
        split; [lia|]. rewrite H2. f_equal. lia.
    + apply Nat.eqb_neq in E. rewrite length_app in E. cbn [length] in *. intros H.
      destruct (IH (batch ++ [idx])) with (k := k) (b := b) as (H1 & H2);
        [exact Hbs|rewrite length_app; cbn [length]; lia|exact H|].
      rewrite length_app in H1, H2. cbn [length] in H1, H2.
      split; [lia|]. rewrite H2. f_equal. lia.
Qed.

Lemma batch_sampler_concat batch_size indices : forall batch,
  concat (batch_sampler batch_size batch indices) = batch ++ indices.
Proof.
  induction indices as [|idx rest IH]; intros batch; cbn [batch_sampler].
  - destruct (0 <? length batch) eqn:E; cbn [concat].
    + reflexivity.
    + apply Nat.ltb_ge in E. destruct batch; [reflexivity|cbn [length] in E; lia].
  - destruct (length (batch ++ [idx]) =? batch_size); cbn [concat]; rewrite IH.
    + now rewrite <- app_assoc.
    + now rewrite <- app_assoc.
Qed.

Lemma batch_sampler_count batch_size indices : forall batch,
  0 < batch_size -> length batch < batch_size ->
  length (batch_sampler batch_size batch indices)
  = (length batch + length indices + batch_size - 1) / batch_size.
Proof.
  induction indices as [|idx rest IH]; intros batch Hbs Hlt; cbn [batch_sampler].
  - rewrite Nat.add_0_r. destruct (0 <? length batch) eqn:E.
    + apply Nat.ltb_lt in E. cbn [length].
      apply (Nat.div_unique _ _ 1 (length batch - 1)); lia.
    + apply Nat.ltb_ge in E. cbn [length]. symmetry.
      apply Nat.div_small. lia.
  - destruct (length (batch ++ [idx]) =? batch_size) eqn:E.
    + apply Nat.eqb_eq in E. rewrite length_app in E. cbn [length] in *.
      rewrite (IH [] Hbs Hbs). cbn [length].
      replace (length batch + S (length rest) + batch_size - 1)
        with (1 * batch_size + (length rest + batch_size - 1)) by lia.
      rewrite Nat.div_add_l by lia. reflexivity.
    + apply Nat.eqb_neq in E. rewrite length_app in E. cbn [length] in *.
      rewrite IH; [|exact Hbs|rewrite length_app; cbn [length]; lia].
      rewrite length_app. cbn [length]. f_equal. lia.
Qed.

Example batch_sampler_5_by_2 :
  batch_sampler 2 [] [0; 1; 2; 3; 4] = [[0; 1]; [2; 3]; [4]].
Proof. reflexivity. Qed.



Context `{R : Random} {RS : RandomSpec R}.

Lemma sampler_Permutation shuffle n g : (sampler shuffle n g).1 ≡ₚ seq 0 n.
Proof.
  unfold sampler. destruct shuffle; [apply torch_randperm_spec|reflexivity].
Qed.


End Loader.

(** The validation loader of cell 9 visits the sample rows in store
    order, in one batch. *)
Example val_loader_sample_order :
  (@index_batches toy_random (val_loader sample_dataset) 0%nat).1 = [[0; 1; 2]].
Proof. reflexivity. Qed.


(** ** Training *)

(** Runs the library calls of a monadic block on a state given by its
    fields, call by value, so that each state is built once. *)
Ltac run_calls :=
  cbv beta iota zeta delta
    [mbind M_bind mret M_ret model_train model_eval model_call criterion_call
     optimizer_zero_grad loss_backward clip_grad_norm_ optimizer_step scheduler_step
     emit set_training set_grad set_seed set_model set_optimizer to_device fst snd
     w_model w_training w_grad w_optimizer w_grad_enabled w_seed w_log
     logits_values logits_graph loss_item loss_graph fmap option_fmap option_map].

Section Training.

Context {E : Encoder} {O : Optim}.

Lemma fold_left_Qplus (l : list Q) (a : Q) : (fold_left Qplus l a == a + Qsum l)%Q.
Proof.
  revert a; induction l as [|x l IH]; intros a; cbn [fold_left Qsum foldr].
  - now rewrite Qplus_0_r.
  - rewrite IH. now rewrite Qplus_assoc.
Qed.

Lemma train_steps_shape criterion scheduler batches : forall w,
  length (train_steps criterion scheduler w batches).2 = length batches
  /\ w_log (train_steps criterion scheduler w batches).1
     = w_log w ++ concat (map (fun _ => step_events scheduler) batches)
  /\ (w_training w = true ->
      w_training (train_steps criterion scheduler w batches).1 = true)
  /\ Forall2 (fun batch loss => exists logits, loss = criterion logits (b_targets batch))
       batches (train_steps criterion scheduler w batches).2.
Proof.
  induction batches as [|batch batches IH]; intros w; cbn [train_steps].
  - cbn. rewrite app_nil_r. repeat split; [tauto|constructor].
  - destruct (train_step criterion scheduler w batch) as [w1 loss] eqn:Hstep.
    specialize (IH w1).
    destruct (train_steps criterion scheduler w1 batches) as [w2 losses].
    cbn [fst snd length map concat] in *.
    destruct IH as (Hlen & Hlog & Htr & Hall).
    unfold train_step in Hstep.
    destruct (adamw_step _ _ _) as [o1 m1] in Hstep.
    injection Hstep as <- <-. cbn [w_log w_training] in *.
    rewrite Hlen, Hlog, <- app_assoc. repeat split; [auto|].
    constructor; [eauto|exact Hall].
Qed.

Lemma for_loop_cons {A S} (x : A) (xs : list A) (acc : S) (body : S -> A -> M S) w :
  for_loop (x :: xs) acc body w
  = match body acc x w with
    | (w', Ok acc') => for_loop xs acc' body w'
    | (w', Raise e) => (w', Raise e)
    end.
Proof. reflexivity. Qed.

(** The body of the loop of [train_epoch] is one training step. *)
Lemma train_body criterion scheduler (body : Q -> Batch -> M Q) :
  body = (fun total_loss batch =>
    let input_ids := to_device (b_input_ids batch) in
    let attention_mask := to_device (b_attention_mask batch) in
    let token_type_ids := to_device (b_token_type_ids batch) in
    let targets := to_device (b_targets batch) in
    outputs ← model_call input_ids attention_mask token_type_ids;
    loss ← criterion_call criterion outputs targets;
    _ ← optimizer_zero_grad;
    _ ← loss_backward loss;
    _ ← clip_grad_norm_ 1;
    _ ← optimizer_step;
    _ ← match scheduler with
        | Some _ => scheduler_step
        | None => mret tt
        end;
    mret (total_loss + loss_item loss)%Q) ->
  forall (w : world) (total_loss : Q) (batch : Batch),
    w_training w = true -> w_grad_enabled w = true ->
    body total_loss batch w
    = ((train_step criterion scheduler w batch).1,
       Ok (total_loss + (train_step criterion scheduler w batch).2)%Q).
Proof.
  intros -> w total_loss batch Htr Hge.
  destruct w as [m tr g o ge seed log]. cbn in Htr, Hge. subst tr ge.
  unfold train_step.
  run_calls.
  destruct (adamw_step o m _) as [o1 m1].
  destruct scheduler as [sch|]; unfold step_events; run_calls;
    rewrite <- !app_assoc; reflexivity.
Qed.

(** The loop of [train_epoch] runs the training steps in order and
    adds up their losses. *)
Lemma train_loop criterion scheduler (body : Q -> Batch -> M Q) :
  body = (fun total_loss batch =>
    let input_ids := to_device (b_input_ids batch) in
    let attention_mask := to_device (b_attention_mask batch) in
    let token_type_ids := to_device (b_token_type_ids batch) in
    let targets := to_device (b_targets batch) in
    outputs ← model_call input_ids attention_mask token_type_ids;
    loss ← criterion_call criterion outputs targets;
    _ ← optimizer_zero_grad;
    _ ← loss_backward loss;
    _ ← clip_grad_norm_ 1;
    _ ← optimizer_step;
    _ ← match scheduler with
        | Some _ => scheduler_step
        | None => mret tt
        end;
    mret (total_loss + loss_item loss)%Q) ->
  forall batches (w : world) (total_loss : Q),
    w_training w = true -> w_grad_enabled w = true ->
    for_loop batches total_loss body w
    = ((train_steps criterion scheduler w batches).1,
       Ok (fold_left Qplus (train_steps criterion scheduler w batches).2 total_loss)).
Proof.
  intros Hbody.
  induction batches as [|batch batches IH]; intros w total_loss Htr Hge; [reflexivity|].
  rewrite for_loop_cons, (train_body _ _ _ Hbody w total_loss batch Htr Hge).
  cbn [train_steps].
  destruct (train_step criterion scheduler w batch) as [w1 loss] eqn:Hstep.
  cbn [fst snd].
  assert (w_training w1 = true /\ w_grad_enabled w1 = true) as [Htr1 Hge1].
  { unfold train_step in Hstep. destruct (adamw_step _ _ _) in Hstep.
    injection Hstep as <- _. split; reflexivity. }
  rewrite (IH w1 _ Htr1 Hge1).
  destruct (train_steps criterion scheduler w1 batches) as [w2 losses].
  reflexivity.
Qed.

Lemma M_bind_ok {A B} (m : M A) (f : A -> M B) (w w' : world) (a : A) :
  m w = (w', Ok a) -> (m ≫= f) w = f a w'.
Proof. intros H. unfold mbind, M_bind. now rewrite H. Qed.

Lemma M_bind_raise {A B} (m : M A) (f : A -> M B) (w w' : world) (e : exn) :
  m w = (w', Raise e) -> (m ≫= f) w = (w', Raise e).
Proof. intros H. unfold mbind, M_bind. now rewrite H. Qed.

(** [train_epoch] on a state that records gradients: the training
    steps in order, then the division of the summed losses by the
    number of batches. *)
Lemma train_epoch_run criterion scheduler data_loader (w : world) :
  w_grad_enabled w = true ->
  train_epoch data_loader criterion scheduler w
  = ((train_steps criterion scheduler
        (emit CallModelTrain (set_training true w)) data_loader).1,
     match data_loader with
     | [] => Raise ZeroDivisionError
     | _ =>
         Ok (fold_left Qplus
               (train_steps criterion scheduler
                  (emit CallModelTrain (set_training true w)) data_loader).2 0
             / inject_Z (Z.of_nat (length data_loader)))%Q
     end).
Proof.
  intros Hge. unfold train_epoch, tqdm.
  rewrite (M_bind_ok model_train _ w (emit CallModelTrain (set_training true w)) tt eq_refl).
  erewrite M_bind_ok; [|apply (train_loop criterion scheduler _ eq_refl);
                         [reflexivity|exact Hge]].
  unfold truediv. destruct data_loader as [|batch batches]; reflexivity.
Qed.

(** Without gradient recording the first [loss.backward()] raises. *)
Lemma train_epoch_no_grad criterion scheduler batch batches (w : world) :
  w_grad_enabled w = false ->
  (train_epoch (batch :: batches) criterion scheduler w).2 = Raise RuntimeError.
Proof.
  intros Hge. destruct w as [m tr g o ge seed log]. cbn in Hge. subst ge.
  unfold train_epoch, tqdm.
  erewrite M_bind_ok; [|reflexivity].
  erewrite M_bind_raise; [reflexivity|].
  rewrite for_loop_cons.
  run_calls. reflexivity.
Qed.

(** C2. On a non-empty loader, in a state that records gradients (the
    default), [train_epoch] with the notebook's loss switches the model
    to training mode and then runs, for each batch in order, exactly:
    the forward pass, the loss, [zero_grad], [backward], the clipping of
    the gradient norm to 1, the optimizer step, and the scheduler step
    when a scheduler is given; the loss of a batch is the mean of the
    binary cross-entropy on logits over all examples and labels of the
    batch; the value returned is the arithmetic mean of the losses of
    the batches. *)
Theorem train_epoch_steps (data_loader : list Batch) (scheduler : option Scheduler)
    (w : world) :
  data_loader <> [] ->
  w_grad_enabled w = true ->
  exists (w' : world) (losses : list Q) (avg : Q),
    train_steps BCEWithLogitsLoss scheduler
      (emit CallModelTrain (set_training true w)) data_loader = (w', losses)
    /\ train_epoch data_loader BCEWithLogitsLoss scheduler w = (w', Ok avg)
    /\ (avg == arithmetic_mean losses)%Q
    /\ length losses = length data_loader
    /\ Forall2
         (fun batch loss =>
            exists logits : list (list Q),
              loss = (Qsum (concat (zip_with (zip_with bce_with_logits)
                                      logits (b_targets batch)))
                      / inject_Z (Z.of_nat
                          (length (concat (zip_with (zip_with bce_with_logits)
                                             logits (b_targets batch))))))%Q)
         data_loader losses
    /\ w_log w'
       = w_log w ++ CallModelTrain
           :: concat (map (fun _ => step_events scheduler) data_loader).
Proof.
  intros Hne Hge.
  pose proof (train_epoch_run BCEWithLogitsLoss scheduler data_loader w Hge) as Hrun.
  pose proof (train_steps_shape BCEWithLogitsLoss scheduler data_loader
                (emit CallModelTrain (set_training true w))) as (Hlen & Hlog & _ & Hall).
  destruct (train_steps BCEWithLogitsLoss scheduler
              (emit CallModelTrain (set_training true w)) data_loader)
    as [w' losses] eqn:Hsteps.
  cbn [fst snd] in *.
  exists w', losses,
    (fold_left Qplus losses 0 / inject_Z (Z.of_nat (length data_loader)))%Q.
  split; [reflexivity|]. split.
  { rewrite Hrun. destruct data_loader; [contradiction|reflexivity]. }
  split.
  { unfold arithmetic_mean. rewrite Hlen, fold_left_Qplus. now rewrite Qplus_0_l. }
  split; [exact Hlen|]. split; [exact Hall|].
  rewrite Hlog. cbn [emit set_training w_log]. now rewrite <- app_assoc.
Qed.

End Training.

Lemma train_epoch_steps_witness :
  exists (w' : @world toy_encoder toy_optim) (losses : list Q) (avg : Q),
    @train_steps toy_encoder toy_optim (@BCEWithLogitsLoss toy_encoder)
      (Some LinearScheduleWithWarmup)
      (emit CallModelTrain (set_training true sample_world)) sample_loader = (w', losses)
    /\ @train_epoch toy_encoder toy_optim sample_loader (@BCEWithLogitsLoss toy_encoder)
         (Some LinearScheduleWithWarmup) sample_world = (w', Ok avg)
    /\ (avg == arithmetic_mean losses)%Q
    /\ length losses = length sample_loader
    /\ Forall2
         (fun batch loss =>
            exists logits : list (list Q),
              loss = (Qsum (concat (zip_with (zip_with (@bce_with_logits toy_encoder))
                                      logits (b_targets batch)))
                      / inject_Z (Z.of_nat
                          (length (concat (zip_with (zip_with (@bce_with_logits toy_encoder))
                                             logits (b_targets batch))))))%Q)
         sample_loader losses
    /\ w_log w'
       = w_log sample_world ++ CallModelTrain
           :: concat (map (fun _ => step_events (Some LinearScheduleWithWarmup)) sample_loader).
Proof.
  apply (@train_epoch_steps toy_encoder toy_optim sample_loader
           (Some LinearScheduleWithWarmup) sample_world).
  - vm_compute. discriminate.
  - reflexivity.
Defined.

(** ** Evaluation *)

Section Evaluation.

Context {E : Encoder} {O : Optim}.

(** The body of the loop of [eval_model]: a forward pass in evaluation
    mode and the loss; only the log of the state changes. *)
Lemma eval_body criterion
    (body : Q * list (list (list Z)) * list (list (list Q)) -> Batch
            -> M (Q * list (list (list Z)) * list (list (list Q)))) :
  body = (fun '(total_loss, all_targets, all_outputs) batch =>
      let input_ids := to_device (b_input_ids batch) in
      let attention_mask := to_device (b_attention_mask batch) in
      let token_type_ids := to_device (b_token_type_ids batch) in
      let targets := to_device (b_targets batch) in
      outputs ← model_call input_ids attention_mask token_type_ids;
      loss ← criterion_call criterion outputs targets;
      mret ((total_loss + loss_item loss)%Q,
            all_targets ++ [targets],
            all_outputs ++ [map (map sigmoid) (logits_values outputs)])) ->
  forall m g o seed log total_loss all_targets all_outputs batch,
    body (total_loss, all_targets, all_outputs) batch
      {| w_model := m; w_training := false; w_grad := g; w_optimizer := o;
         w_grad_enabled := false; w_seed := seed; w_log := log |}
    = ({| w_model := m; w_training := false; w_grad := g; w_optimizer := o;
          w_grad_enabled := false; w_seed := seed; w_log := log ++ eval_events |},
       Ok ((total_loss
            + criterion (forward m false seed (b_input_ids batch)
                           (b_attention_mask batch) (b_token_type_ids batch))
                (b_targets batch))%Q,
           all_targets ++ [b_targets batch],
           all_outputs
           ++ [map (map sigmoid)
                 (forward m false seed (b_input_ids batch)
                    (b_attention_mask batch) (b_token_type_ids batch))])).
Proof.
  intros -> m g o seed log total_loss all_targets all_outputs batch.
  run_calls. unfold eval_events. now rewrite <- app_assoc.
Qed.

Lemma eval_loop criterion
    (body : Q * list (list (list Z)) * list (list (list Q)) -> Batch
            -> M (Q * list (list (list Z)) * list (list (list Q)))) :
  body = (fun '(total_loss, all_targets, all_outputs) batch =>
      let input_ids := to_device (b_input_ids batch) in
      let attention_mask := to_device (b_attention_mask batch) in
      let token_type_ids := to_device (b_token_type_ids batch) in
      let targets := to_device (b_targets batch) in
      outputs ← model_call input_ids attention_mask token_type_ids;
      loss ← criterion_call criterion outputs targets;
      mret ((total_loss + loss_item loss)%Q,
            all_targets ++ [targets],
            all_outputs ++ [map (map sigmoid) (logits_values outputs)])) ->
  forall m g o seed batches log total_loss all_targets all_outputs,
    for_loop batches (total_loss, all_targets, all_outputs) body
      {| w_model := m; w_training := false; w_grad := g; w_optimizer := o;
         w_grad_enabled := false; w_seed := seed; w_log := log |}
    = ({| w_model := m; w_training := false; w_grad := g; w_optimizer := o;
          w_grad_enabled := false; w_seed := seed;
          w_log := log ++ concat (map (fun _ => eval_events) batches) |},
       Ok (fold_left Qplus
             (map (fun batch =>
                     criterion (forward m false seed (b_input_ids batch)
                                  (b_attention_mask batch) (b_token_type_ids batch))
                       (b_targets batch)) batches) total_loss,
           all_targets ++ map b_targets batches,
           all_outputs
           ++ map (fun batch =>
                     map (map sigmoid)
                       (forward m false seed (b_input_ids batch)
                          (b_attention_mask batch) (b_token_type_ids batch)))
                batches)).
Proof.
  intros Hbody m g o seed.
  induction batches as [|batch batches IH]; intros log total_loss all_targets all_outputs.
  - cbn. now rewrite !app_nil_r.
  - rewrite for_loop_cons, (eval_body criterion body Hbody), IH.
    cbn [map concat fold_left]. now rewrite <- !app_assoc.
Qed.

(** [eval_model] leaves the state [eval_world] and returns
    [eval_report]. *)
Lemma eval_model_run criterion data_loader (w : world) :
  eval_model data_loader criterion w
  = (eval_world w data_loader, eval_report data_loader criterion w).
Proof.
  destruct w as [m tr g o ge seed log].
  unfold eval_model.
  erewrite M_bind_ok; [|reflexivity].
  erewrite M_bind_ok.
  2:{ unfold no_grad, model_eval, emit, set_training, set_grad_enabled.
      cbn [w_model w_training w_grad w_optimizer w_grad_enabled w_seed w_log].
      rewrite (eval_loop criterion _ eq_refl). reflexivity. }
  unfold eval_report, eval_world, eval_logits.
  cbn [w_model w_training w_grad w_optimizer w_grad_enabled w_seed w_log app].
  rewrite <- (app_assoc log [CallModelEval]). cbn [app].
  destruct data_loader as [|batch batches]; [reflexivity|].
  unfold truediv. cbn [length Nat.eqb].
  erewrite M_bind_ok; [|reflexivity].
  cbn [map]. unfold np_concatenate.
  erewrite M_bind_ok; [|reflexivity].
  erewrite M_bind_ok; [|reflexivity].
  cbn [mbind result_bind rbind].
  destruct (roc_auc_loop _ _ _ _ _) as [roc|e] eqn:Hroc.
  + erewrite M_bind_ok; [|reflexivity]. reflexivity.
  + erewrite M_bind_raise; [|reflexivity]. reflexivity.
Qed.

(** C8. [eval_model] changes no parameter of the model: whatever the
    loader, and whether it returns or raises, the parameters, their
    gradients, the optimizer state and the random state are afterwards
    what they were, and gradient recording is set back. It switches
    the model to evaluation mode; every forward pass it makes runs in
    that mode with gradient recording off, and it calls neither
    [backward] nor the optimizer. In evaluation mode the dropout layer
    is the identity: the logits are the linear layer applied to the
    pooled output, and what [eval_model] returns is computed from these
    logits ([eval_report]). *)
Theorem eval_model_frame (data_loader : list Batch) (criterion : Criterion) (w : world) :
  w_model (eval_model data_loader criterion w).1 = w_model w
  /\ w_grad (eval_model data_loader criterion w).1 = w_grad w
  /\ w_optimizer (eval_model data_loader criterion w).1 = w_optimizer w
  /\ w_seed (eval_model data_loader criterion w).1 = w_seed w
  /\ w_grad_enabled (eval_model data_loader criterion w).1 = w_grad_enabled w
  /\ w_training (eval_model data_loader criterion w).1 = false
  /\ w_log (eval_model data_loader criterion w).1
     = w_log w ++ CallModelEval
         :: concat (map (fun _ => [CallForward false false; CallCriterion]) data_loader)
  /\ (forall m seed input_ids attention_mask token_type_ids,
        forward m false seed input_ids attention_mask token_type_ids
        = Linear (out_weight m) (out_bias m)
            (bert_pooler_output (bert m) false seed
               input_ids attention_mask token_type_ids))
  /\ (forall p seed x, Dropout p false seed x = x)
  /\ (eval_model data_loader criterion w).2 = eval_report data_loader criterion w.
Proof.
  rewrite eval_model_run. cbn [fst snd eval_world w_model w_grad w_optimizer w_seed
                               w_grad_enabled w_training w_log].
  repeat split; reflexivity.
Qed.

Lemma column_raises {A} (i : nat) (a : list (list A)) (e : exn) :
  column i a = Raise e -> e = IndexError.
Proof.
  unfold column. induction a as [|row a IH]; cbn [rmapM]; [discriminate|].
  destruct (row !! i); cbn [rbind]; [|now intros [= <-]].
  destruct (rmapM _ a); cbn [rbind]; [discriminate|]. exact IH.
Qed.

Lemma roc_auc_score_raises y_true y_score (e : exn) :
  roc_auc_score y_true y_score = Raise e -> e = ValueError.
Proof.
  unfold roc_auc_score. destruct (negb _); [now intros [= <-]|].
  destruct (remove_dups y_true) as [|a [|b [|c l]]]; try (now intros [= <-]).
Qed.

(** One round of the loop over the labels: the score of the label,
    or the marker when [roc_auc_score] raises. *)
Lemma roc_auc_loop_cons i label names all_targets all_outputs roc_auc :
  roc_auc_loop i (label :: names) all_targets all_outputs roc_auc
  = match column i all_targets, column i all_outputs with
    | Ok y_true, Ok y_score =>
        roc_auc_loop (S i) names all_targets all_outputs
          (<[label := match roc_auc_score y_true y_score with
                      | Ok score => ScoreFloat score
                      | Raise _ => ScoreStr undefined_marker
                      end]> roc_auc)
    | Ok _, Raise e => Raise e
    | Raise e, _ => Raise e
    end.
Proof.
  cbn [roc_auc_loop]. unfold mbind, result_bind.
  destruct (column i all_targets) as [y_true|e1] eqn:HT; cbn [rbind].
  - destruct (column i all_outputs) as [y_score|e2] eqn:HO; cbn [rbind].
    + destruct (roc_auc_score y_true y_score) as [score|e3] eqn:HS; cbn [rbind].
      * reflexivity.
      * now apply roc_auc_score_raises in HS as ->.
    + now apply column_raises in HO as ->.
  - now apply column_raises in HT as ->.
Qed.

Lemma roc_auc_loop_raises names : forall i all_targets all_outputs roc_auc (e : exn),
  roc_auc_loop i names all_targets all_outputs roc_auc = Raise e -> e = IndexError.
Proof.
  induction names as [|label names IH]; intros i T outs roc e; [discriminate|].
  rewrite roc_auc_loop_cons.
  destruct (column i T) as [y_true|e1] eqn:HT;
    [|apply column_raises in HT as ->; now intros [= <-]].
  destruct (column i outs) as [y_score|e2] eqn:HO;
    [|apply column_raises in HO as ->; now intros [= <-]].
  apply IH.
Qed.

(** C10. On a loader without batches both [train_epoch] and
    [eval_model] raise [ZeroDivisionError], at the division of the
    summed loss by [len(data_loader)]; on a loader with a batch neither
    raises it. So an average loss is returned only for a loader with
    at least one batch. *)
Theorem empty_loader_zero_division (criterion : Criterion) (scheduler : option Scheduler)
    (w : world) :
  (train_epoch [] criterion scheduler w).2 = Raise ZeroDivisionError
  /\ (eval_model [] criterion w).2 = Raise ZeroDivisionError
  /\ (forall data_loader,
        data_loader <> [] ->
        (train_epoch data_loader criterion scheduler w).2 <> Raise ZeroDivisionError
        /\ (eval_model data_loader criterion w).2 <> Raise ZeroDivisionError)
  /\ (forall data_loader avg,
        (train_epoch data_loader criterion scheduler w).2 = Ok avg -> data_loader <> [])
  /\ (forall data_loader report,
        (eval_model data_loader criterion w).2 = Ok report -> data_loader <> []).
Proof.
  assert (Htrain : (train_epoch [] criterion scheduler w).2 = Raise ZeroDivisionError)
    by reflexivity.
  assert (Heval : (eval_model [] criterion w).2 = Raise ZeroDivisionError)
    by (now rewrite eval_model_run).
  split; [exact Htrain|]. split; [exact Heval|]. split.
  { intros [|batch batches] Hne; [contradiction|]. split.
    - destruct (w_grad_enabled w) eqn:Hge.
      + now rewrite (train_epoch_run criterion scheduler _ w Hge).
      + now rewrite (train_epoch_no_grad criterion scheduler batch batches w Hge).
    - rewrite eval_model_run. cbn [snd]. unfold eval_report.
      cbn [map np_concatenate mbind result_bind rbind].
      destruct (roc_auc_loop _ _ _ _ _) as [roc|e] eqn:Hroc; cbn [rbind]; [discriminate|].
      apply roc_auc_loop_raises in Hroc as ->. discriminate. }
  split.
  - intros data_loader avg Hok ->. rewrite Htrain in Hok. discriminate.
  - intros data_loader report Hok ->. rewrite Heval in Hok. discriminate.
Qed.

End Evaluation.

(** ** The ranking score *)

Section RankingScore.

Lemma Qsum_bounds (l : list Q) :
  Forall (fun c => 0 <= c /\ c <= 1)%Q l ->
  (0 <= Qsum l /\ Qsum l <= inject_Z (Z.of_nat (length l)))%Q.
Proof.
  induction 1 as [|c l [Hc0 Hc1] _ [IH0 IH1]]; cbn [Qsum foldr length].
  - split; apply Qle_refl.
  - fold (Qsum l). split.
    + change 0%Q with (0 + 0)%Q. now apply Qplus_le_compat.
    + rewrite Nat2Z.inj_succ, <- Z.add_1_l, inject_Z_plus.
      now apply Qplus_le_compat.
Qed.

Lemma pair_credit_bounds p n : (0 <= pair_credit p n /\ pair_credit p n <= 1)%Q.
Proof.
  unfold pair_credit. destruct (Qeq_bool p n); [|destruct (Qle_bool p n)];
    split; discriminate.
Qed.

Lemma pair_credits_shape pos neg :
  Forall (fun c => 0 <= c /\ c <= 1)%Q (pair_credits pos neg)
  /\ length (pair_credits pos neg) = length pos * length neg.
Proof.
  unfold pair_credits. induction pos as [|p pos [IHf IHl]]; cbn [flat_map length].
  - split; [constructor|reflexivity].
  - split.
    + apply Forall_app. split; [|exact IHf].
      apply Forall_forall. intros c Hc. apply list_elem_of_fmap in Hc as (n & -> & _).
      apply pair_credit_bounds.
    + rewrite length_app, length_map, IHl. reflexivity.
Qed.

(** The ranking score of two non-empty groups is a number of [0, 1]. *)
Lemma auc_bounds pos neg :
  pos <> [] -> neg <> [] -> (0 <= auc pos neg /\ auc pos neg <= 1)%Q.
Proof.
  intros Hpos Hneg. unfold auc.
  destruct (pair_credits_shape pos neg) as [Hf Hl].
  destruct (Qsum_bounds _ Hf) as [H0 H1]. rewrite Hl in H1.
  assert (0 < inject_Z (Z.of_nat (length pos * length neg)))%Q as Hn.
  { change 0%Q with (inject_Z 0). rewrite <- Zlt_Qlt.
    destruct pos; [contradiction|]. destruct neg; [contradiction|]. cbn [length]. lia. }
  split.
  - apply Qle_shift_div_l; [exact Hn|]. now rewrite Qmult_0_l.
  - apply Qle_shift_div_r; [exact Hn|]. now rewrite Qmult_1_l.
Qed.

Lemma scores_of_nonempty c (y_true : list Z) (y_score : list Q) :
  c ∈ y_true -> length y_true = length y_score -> scores_of c y_true y_score <> [].
Proof.
  unfold scores_of. revert y_score.
  induction y_true as [|y y_true IH]; intros [|s y_score] Hc Hlen;
    try (cbn [length] in Hlen; discriminate).
  - now apply elem_of_nil in Hc.
  - cbn [zip zip_with]. rewrite filter_cons. cbn [fst]. destruct (decide (y = c)) as [->|Hne].
    + discriminate.
    + apply elem_of_cons in Hc as [->|Hc]; [contradiction|].
      apply IH; [exact Hc|]. cbn [length] in Hlen. lia.
Qed.

Lemma two_classes (y_true : list Z) :
  Forall (fun t => t = 0 \/ t = 1)%Z y_true ->
  0%Z ∈ y_true -> 1%Z ∈ y_true ->
  remove_dups y_true = [0; 1]%Z \/ remove_dups y_true = [1; 0]%Z.
Proof.
  intros Hbin H0 H1.
  assert (remove_dups y_true ≡ₚ [0; 1]%Z) as Hp.
  { apply NoDup_Permutation.
    - apply NoDup_remove_dups.
    - repeat constructor; rewrite ?elem_of_cons, ?elem_of_nil; intuition discriminate.
    - intros x. rewrite elem_of_remove_dups. split.
      + intros Hx. rewrite Forall_forall in Hbin.
        destruct (Hbin x Hx) as [-> | ->]; [left|right; left].
      + intros Hx. apply elem_of_cons in Hx as [->|Hx]; [exact H0|].
        apply elem_of_cons in Hx as [->|Hx]; [exact H1|]. now apply elem_of_nil in Hx. }
  symmetry in Hp. apply Permutation_length_2_inv in Hp. exact Hp.
Qed.

Lemma one_class (y_true : list Z) (c : Z) :
  Forall (fun t => t = c) y_true ->
  remove_dups y_true = [] \/ remove_dups y_true = [c].
Proof.
  induction 1 as [|t y_true -> _ IH]; [now left|].
  cbn [remove_dups]. destruct (decide_rel elem_of c y_true) as [Hin|Hnin].
  - exact IH.
  - destruct IH as [-> | Heq]; [now right|].
    exfalso. apply Hnin. apply elem_of_remove_dups. rewrite Heq. left.
Qed.

(** Four examples of which one negative outranks one positive: three
    of the four pairs are in order. *)
Example roc_auc_score_four :
  roc_auc_score [0; 0; 1; 1]%Z [1 # 10; 4 # 10; 35 # 100; 8 # 10]%Q = Ok (3 # 4)%Q.
Proof. vm_compute. reflexivity. Qed.

Example roc_auc_score_all_zero :
  roc_auc_score [0; 0; 0]%Z [1 # 10; 4 # 10; 35 # 100]%Q = Raise ValueError.
Proof. vm_compute. reflexivity. Qed.

(** With both classes among the targets the score is a number of
    [0, 1]. *)
Lemma roc_auc_score_two_classes (y_true : list Z) (y_score : list Q) :
  Forall (fun t => t = 0 \/ t = 1)%Z y_true ->
  0%Z ∈ y_true -> 1%Z ∈ y_true ->
  length y_true = length y_score ->
  exists q, roc_auc_score y_true y_score = Ok q /\ (0 <= q /\ q <= 1)%Q.
Proof.
  intros Hbin H0 H1 Hlen. unfold roc_auc_score.
  rewrite Hlen, Nat.eqb_refl. cbn [negb].
  pose proof (scores_of_nonempty 1 y_true y_score H1 Hlen) as Hpos.
  pose proof (scores_of_nonempty 0 y_true y_score H0 Hlen) as Hneg.
  destruct (two_classes y_true Hbin H0 H1) as [-> | ->]; cbn [Z.max Z.min Z.compare];
    (eexists; split; [reflexivity|]); now apply auc_bounds.
Qed.

(** With a single class among the targets the score is refused. *)
Lemma roc_auc_score_one_class (y_true : list Z) (y_score : list Q) (c : Z) :
  Forall (fun t => t = c) y_true ->
  roc_auc_score y_true y_score = Raise ValueError.
Proof.
  intros Hall. unfold roc_auc_score. destruct (negb _); [reflexivity|].
  now destruct (one_class y_true c Hall) as [-> | ->].
Qed.

Lemma column_ok {A} (d : A) (i : nat) (a : list (list A)) :
  Forall (fun row => i < length row) a ->
  column i a = Ok (map (fun row => nth i row d) a).
Proof.
  unfold column. induction 1 as [|row a Hrow _ IH]; [reflexivity|].
  cbn [rmapM map]. destruct (lookup_lt_is_Some_2 row i Hrow) as [x Hx].
  rewrite Hx, IH. cbn [rbind]. do 2 f_equal.
  symmetry. now apply nth_lookup_Some with (d := d) in Hx.
Qed.

(** The dictionary the loop over the labels builds: every label gets
    the entry of its own column. *)
Lemma roc_auc_loop_lookup all_targets all_outputs names :
  forall i roc_auc,
    NoDup names ->
    (forall k, k < length names ->
       Forall (fun row => i + k < length row) all_targets
       /\ Forall (fun row => i + k < length row) all_outputs) ->
    exists roc_auc',
      roc_auc_loop i names all_targets all_outputs roc_auc = Ok roc_auc'
      /\ (forall k label,
            names !! k = Some label ->
            roc_auc' !! label
            = Some match roc_auc_score
                           (map (fun row => nth (i + k) row 0%Z) all_targets)
                           (map (fun row => nth (i + k) row 0%Q) all_outputs) with
                   | Ok score => ScoreFloat score
                   | Raise _ => ScoreStr undefined_marker
                   end)
      /\ (forall label, label ∉ names -> roc_auc' !! label = roc_auc !! label).
Proof.
  induction names as [|name names IH]; intros i roc_auc Hnd Hcols.
  - exists roc_auc. split; [reflexivity|]. split; [|reflexivity].
    intros k label Hk. now rewrite lookup_nil in Hk.
  - apply NoDup_cons in Hnd as [Hname Hnd].
    rewrite roc_auc_loop_cons.
    destruct (Hcols 0) as [HT HO]; [cbn [length]; lia|]. rewrite Nat.add_0_r in HT, HO.
    rewrite (column_ok 0%Z i all_targets HT), (column_ok 0%Q i all_outputs HO).
    edestruct (IH (S i)) as (roc & Hloop & Hin & Hout); [exact Hnd| |].
    { intros k Hk. replace (S i + k) with (i + S k) by lia.
      apply Hcols. cbn [length]. lia. }
    exists roc. split; [exact Hloop|]. split.
    + intros [|k] label Hk.
      * injection Hk as <-. rewrite (Hout name Hname), lookup_insert_eq.
        now rewrite Nat.add_0_r.
      * cbn in Hk. rewrite (Hin k label Hk).
        now replace (S i + k) with (i + S k) by lia.
    + intros label Hl. apply not_elem_of_cons in Hl as [Hne Hl].
      rewrite (Hout label Hl). now rewrite lookup_insert_ne.
Qed.

Lemma labels_NoDup : NoDup labels.
Proof. apply (bool_decide_unpack (NoDup labels)). vm_compute. exact I. Qed.

Context {E : Encoder} {ES : EncoderSpec E} {O : Optim}.

(** The logits have one row per example and one entry per unit of the
    linear layer. *)
Lemma forward_shape (m : BertForToxicComment) training seed ids mask types :
  length (forward m training seed ids mask types) = length ids
  /\ Forall (fun row => length row = Nat.min (length (out_weight m)) (length (out_bias m)))
       (forward m training seed ids mask types).
Proof.
  unfold forward, Linear. split.
  - rewrite length_map. unfold Dropout. destruct training.
    + now rewrite length_imap, bert_pooler_rows.
    + apply bert_pooler_rows.
  - apply Forall_forall. intros row Hrow.
    apply list_elem_of_fmap in Hrow as (x & -> & _). apply length_zip_with.
Qed.

(** On a loader with at least one batch, whose batches are well
    formed, and with six output units, [eval_model] returns; every
    label has an entry in its dictionary: a number of [0, 1] when both
    classes occur among the targets of the label, the marker when they
    are all 0 or all 1. *)
Lemma eval_model_report (data_loader : list Batch) (criterion : Criterion) (w : world) :
  data_loader <> [] ->
  Forall batch_ok data_loader ->
  length (out_weight (w_model w)) = 6 ->
  length (out_bias (w_model w)) = 6 ->
  exists (avg_loss : Q) (roc_auc : gmap string pyscore),
    (eval_model data_loader criterion w).2 = Ok (avg_loss, roc_auc)
    /\ forall i label,
         labels !! i = Some label ->
         is_Some (roc_auc !! label)
         /\
         ((0%Z ∈ label_targets i data_loader /\ 1%Z ∈ label_targets i data_loader) ->
            exists q, roc_auc !! label = Some (ScoreFloat q) /\ (0 <= q /\ q <= 1)%Q)
         /\ ((Forall (fun t => t = 0%Z) (label_targets i data_loader)
              \/ Forall (fun t => t = 1%Z) (label_targets i data_loader)) ->
             roc_auc !! label = Some (ScoreStr undefined_marker)).
Proof.
  intros Hne Hok HW Hb.
  rewrite eval_model_run. cbn [snd]. unfold eval_report.
  destruct data_loader as [|batch batches]; [contradiction|].
  set (data_loader := batch :: batches) in *.
  set (w0 := eval_world w data_loader).
  set (all_targets := map b_targets data_loader).
  set (all_outputs := map (fun batch => map (map sigmoid) (eval_logits w0 batch)) data_loader).
  replace (np_concatenate all_targets) with (Ok (concat all_targets)) by reflexivity.
  replace (np_concatenate all_outputs) with (Ok (concat all_outputs)) by reflexivity.
  cbn [mbind result_bind rbind].
  assert (HTrows : Forall (fun row => length row = 6
                                      /\ Forall (fun t => t = 0%Z \/ t = 1%Z) row)
                     (concat all_targets)).
  { apply Forall_concat. subst all_targets. apply Forall_fmap.
    eapply Forall_impl; [exact Hok|]. intros b [_ Hb']. exact Hb'. }
  assert (HOrows : Forall (fun row => length row = 6) (concat all_outputs)).
  { apply Forall_concat. subst all_outputs. apply Forall_fmap.
    apply Forall_forall. intros b _. cbn beta. apply Forall_fmap.
    destruct (forward_shape (w_model w0) false (w_seed w0) (b_input_ids b)
                (b_attention_mask b) (b_token_type_ids b)) as [_ Hrows].
    eapply Forall_impl; [exact Hrows|]. intros row Hrow. unfold compose. cbn beta in *.
    rewrite length_map, Hrow. subst w0. cbn [eval_world w_model]. lia. }
  assert (Hcount : length (concat all_targets) = length (concat all_outputs)).
  { subst all_targets all_outputs. clear -Hok ES.
    induction Hok as [|b bs [Hb _] _ IH]; [reflexivity|].
    cbn [map concat]. rewrite !length_app, IH, length_map. f_equal.
    destruct (forward_shape (w_model w0) false (w_seed w0) (b_input_ids b)
                (b_attention_mask b) (b_token_type_ids b)) as [Hlen _].
    unfold eval_logits. lia. }
  destruct (roc_auc_loop_lookup (concat all_targets) (concat all_outputs) labels 0 ∅
              labels_NoDup) as (roc_auc & Hloop & Hin & _).
  { intros k Hk. cbn [Nat.add]. change (length labels) with 6 in Hk. split.
    - eapply Forall_impl; [exact HTrows|]. intros row [Hrow _]. cbn beta in *. lia.
    - eapply Forall_impl; [exact HOrows|]. intros row Hrow. cbn beta in *. lia. }
  rewrite Hloop. cbn [rbind].
  eexists _, roc_auc. split; [reflexivity|].
  intros i label Hlabel. rewrite (Hin i label Hlabel). cbn [Nat.add].
  assert (Hcol : map (fun row => nth i row 0%Z) (concat all_targets)
                 = label_targets i data_loader).
  { unfold label_targets. subst all_targets.
    clear. induction data_loader as [|b bs IH]; [reflexivity|].
    cbn [map concat]. now rewrite map_app, IH. }
  rewrite Hcol. split; [eauto|].
  assert (Hbin : Forall (fun t => t = 0 \/ t = 1)%Z (label_targets i data_loader)).
  { rewrite <- Hcol. apply Forall_fmap.
    eapply Forall_impl; [exact HTrows|]. intros row [Hrow Hbin]. cbn beta.
    assert (i < length row) as Hi.
    { apply lookup_lt_Some in Hlabel. change (length labels) with 6 in Hlabel. lia. }
    rewrite Forall_forall in Hbin. apply Hbin.
    apply list_elem_of_In, nth_In, Hi. }
  split.
  - intros [H0 H1].
    destruct (roc_auc_score_two_classes (label_targets i data_loader)
                (map (fun row => nth i row 0%Q) (concat all_outputs)) Hbin H0 H1)
      as (q & Hq & Hbounds).
    { rewrite <- Hcol, !length_map. exact Hcount. }
    rewrite Hq. eauto.
  - intros [Hall | Hall];
      now rewrite (roc_auc_score_one_class _ _ _ Hall).
Qed.

Lemma label_targets_nonempty i (data_loader : list Batch) :
  label_targets i data_loader <> [] -> data_loader <> [].
Proof. intros Hys ->. now apply Hys. Qed.

(** C1. For every run of [eval_model] on well-formed batches (one row
    of six 0/1 targets per example) with the six-unit output layer,
    and for each of the six labels on its own: when the targets of the
    label over the whole validation set hold a single class (there is
    a target, and they are all 0 or all 1), the evaluation does not
    abort, the entry of the label is the string
    "Undefined (only one class present)" and every other label still
    has its entry; when both classes occur, the evaluation returns and
    the entry of the label is a number of [0, 1]. *)
Theorem eval_model_scores (data_loader : list Batch) (criterion : Criterion) (w : world) :
  Forall batch_ok data_loader ->
  length (out_weight (w_model w)) = 6 ->
  length (out_bias (w_model w)) = 6 ->
  forall i label,
    labels !! i = Some label ->
    (label_targets i data_loader <> [] ->
     (Forall (fun t => t = 0%Z) (label_targets i data_loader)
      \/ Forall (fun t => t = 1%Z) (label_targets i data_loader)) ->
     exists (avg_loss : Q) (roc_auc : gmap string pyscore),
       (eval_model data_loader criterion w).2 = Ok (avg_loss, roc_auc)
       /\ roc_auc !! label = Some (ScoreStr undefined_marker)
       /\ (forall other, other ∈ labels -> is_Some (roc_auc !! other)))
    /\ ((0%Z ∈ label_targets i data_loader /\ 1%Z ∈ label_targets i data_loader) ->
        exists (avg_loss : Q) (roc_auc : gmap string pyscore) (q : Q),
          (eval_model data_loader criterion w).2 = Ok (avg_loss, roc_auc)
          /\ roc_auc !! label = Some (ScoreFloat q)
          /\ (0 <= q /\ q <= 1)%Q
          /\ (forall other, other ∈ labels -> is_Some (roc_auc !! other))).
Proof.
  intros Hok HW Hb i label Hlabel.
  assert (Hrun : data_loader <> [] ->
            exists (avg_loss : Q) (roc_auc : gmap string pyscore),
              (eval_model data_loader criterion w).2 = Ok (avg_loss, roc_auc)
              /\ (forall other, other ∈ labels -> is_Some (roc_auc !! other))
              /\ ((0%Z ∈ label_targets i data_loader
                   /\ 1%Z ∈ label_targets i data_loader) ->
                  exists q, roc_auc !! label = Some (ScoreFloat q)
                            /\ (0 <= q /\ q <= 1)%Q)
              /\ ((Forall (fun t => t = 0%Z) (label_targets i data_loader)
                   \/ Forall (fun t => t = 1%Z) (label_targets i data_loader)) ->
                  roc_auc !! label = Some (ScoreStr undefined_marker))).
  { intros Hne.
    destruct (eval_model_report data_loader criterion w Hne Hok HW Hb)
      as (avg_loss & roc_auc & Heval & Hentries).
    exists avg_loss, roc_auc. split; [exact Heval|]. split.
    - intros other Hother. apply list_elem_of_lookup in Hother as [j Hj].
      now destruct (Hentries j other Hj).
    - destruct (Hentries i label Hlabel) as (_ & Hboth & Hone). now split. }
  split.
  - intros Hys Hone.
    destruct (Hrun (label_targets_nonempty i data_loader Hys))
      as (avg_loss & roc_auc & Heval & Hall & _ & Hmark).
    exists avg_loss, roc_auc. auto.
  - intros [H0 H1].
    assert (label_targets i data_loader <> []) as Hys
      by (intros Heq; rewrite Heq in H0; now apply elem_of_nil in H0).
    destruct (Hrun (label_targets_nonempty i data_loader Hys))
      as (avg_loss & roc_auc & Heval & Hall & Hboth & _).
    destruct (Hboth (conj H0 H1)) as (q & Hq & Hbounds).
    exists avg_loss, roc_auc, q. auto.
Qed.

End RankingScore.

Lemma toy_encoder_spec : EncoderSpec toy_encoder.
Proof. split. intros. cbn. apply length_map. Qed.

Lemma sample_loader_ok : Forall batch_ok sample_loader.
Proof.
  vm_compute.
  repeat first [ apply Forall_nil | apply Forall_cons | split
               | reflexivity | (left; reflexivity) | (right; reflexivity) ].
Qed.

Lemma eval_model_scores_witness :
  (exists (avg_loss : Q) (roc_auc : gmap string pyscore),
      (@eval_model toy_encoder toy_optim sample_loader (@BCEWithLogitsLoss toy_encoder)
         sample_world).2 = Ok (avg_loss, roc_auc)
      /\ roc_auc !! "threat"%string = Some (ScoreStr undefined_marker)
      /\ (forall other, other ∈ labels -> is_Some (roc_auc !! other)))
  /\ (exists (avg_loss : Q) (roc_auc : gmap string pyscore) (q : Q),
        (@eval_model toy_encoder toy_optim sample_loader (@BCEWithLogitsLoss toy_encoder)
           sample_world).2 = Ok (avg_loss, roc_auc)
        /\ roc_auc !! "toxic"%string = Some (ScoreFloat q)
        /\ (0 <= q /\ q <= 1)%Q
        /\ (forall other, other ∈ labels -> is_Some (roc_auc !! other))).
Proof.
  split.
  - apply (proj1 (@eval_model_scores toy_encoder toy_encoder_spec toy_optim sample_loader
                    (@BCEWithLogitsLoss toy_encoder) sample_world
                    sample_loader_ok eq_refl eq_refl 3 "threat"%string eq_refl)).
    + vm_compute. discriminate.
    + left. vm_compute. repeat constructor.
  - apply (proj2 (@eval_model_scores toy_encoder toy_encoder_spec toy_optim sample_loader
                    (@BCEWithLogitsLoss toy_encoder) sample_world
                    sample_loader_ok eq_refl eq_refl 0 "toxic"%string eq_refl)).
    split; vm_compute; repeat constructor.
Defined.

(** * Further properties *)

(** ** More on text cleaning *)

Section MoreTextCleaner.

Local Open Scope N_scope.

Lemma sub_from_nil_sublist p k s : Re.sub_from p [] k s `sublist_of` s.
Proof.
  revert k; induction s as [|c s IH]; intros k; [constructor|].
  cbn [Re.sub_from]. destruct k as [|k]; [|apply sublist_cons, IH].
  destruct (Re.match_here p (c :: s)) as [[|m]|].
  - apply sublist_skip, IH.
  - cbn [app]. apply sublist_cons, IH.
  - apply sublist_skip, IH.
Qed.

Lemma filter_sublist {A} (f : A -> bool) (l : list A) : List.filter f l `sublist_of` l.
Proof.
  induction l as [|x l IH]; [constructor|].
  cbn [List.filter]. destruct (f x); [now apply sublist_skip|now apply sublist_cons].
Qed.

(** The value of [clean_text] on a string, by the three substitutions. *)
Lemma clean_text_value (s : pystr) :
  clean_text (PyStr s)
  = Ok (lower (List.filter keep_char (map newline_to_space (Re.sub url_pattern [] s)))).
Proof.
  unfold clean_text, re_sub. cbn [rbind]. now rewrite sub_newline, sub_special.
Qed.

(** X1. [clean_text] only deletes characters: its result is what is
    left of the input, each character lowered and each newline turned
    into a space, after some characters are taken out; nothing is added
    or moved, and the result is never longer than the input. *)
Theorem clean_text_only_deletes (s : pystr) :
  exists out,
    clean_text (PyStr s) = Ok out
    /\ out `sublist_of` map (fun c => lower_char (newline_to_space c)) s
    /\ (length out <= length s)%nat.
Proof.
  assert (lower (List.filter keep_char (map newline_to_space (Re.sub url_pattern [] s)))
          `sublist_of` map (fun c => lower_char (newline_to_space c)) s) as Hsub.
  { unfold lower. rewrite <- (map_map newline_to_space lower_char s).
    apply (fmap_sublist lower_char). etransitivity; [apply filter_sublist|].
    apply (fmap_sublist newline_to_space), sub_from_nil_sublist. }
  eexists. split; [apply clean_text_value|]. split; [exact Hsub|].
  apply sublist_length in Hsub. now rewrite length_map in Hsub.
Qed.

Lemma space_not_letter c :
  Re.is_space c = true -> c <> 104 /\ c <> 116 /\ c <> 112.
Proof.
  intros Hc. repeat split; intros ->; vm_compute in Hc; discriminate.
Qed.

Lemma prefix_length_le {A} (f : A -> bool) (l : list A) :
  (prefix_length f l <= length l)%nat.
Proof.
  induction l as [|x l IH]; [reflexivity|]. cbn [prefix_length length].
  destruct (f x); lia.
Qed.

Lemma prefix_length_stop {A} (f : A -> bool) (l : list A) (c : A) (t : list A) :
  f c = false -> prefix_length f (l ++ c :: t) = prefix_length f l.
Proof.
  intros Hc. induction l as [|x l IH]; cbn [app prefix_length]; [now rewrite Hc|].
  destruct (f x); [now rewrite IH|reflexivity].
Qed.

(** A space character after [s] neither starts nor prolongs a match of
    the URL pattern in [s]. *)
Lemma starts_url_before_space (s : pystr) (c : N) (t : pystr) :
  Re.is_space c = true -> starts_url (s ++ c :: t) = starts_url s.
Proof.
  intros Hc. destruct (space_not_letter c Hc) as (Hh & Ht & Hp).
  assert (nonspace c = false) as Hn by (unfold nonspace; now rewrite Hc).
  destruct s as [|a1 [|a2 [|a3 [|a4 [|a5 s]]]]]; cbn [app starts_url]; try reflexivity.
  - destruct t as [|? [|? [|? [|? ?]]]]; try reflexivity.
    apply N.eqb_neq in Hh. now rewrite Hh.
  - destruct t as [|? [|? [|? ?]]]; try reflexivity.
    apply N.eqb_neq in Ht. rewrite Ht. now rewrite andb_false_r.
  - destruct t as [|? [|? ?]]; try reflexivity.
    apply N.eqb_neq in Ht. rewrite Ht. now rewrite !andb_false_r.
  - destruct t as [|? ?]; try reflexivity.
    apply N.eqb_neq in Hp. rewrite Hp. now rewrite !andb_false_r.
  - rewrite Hn. now rewrite !andb_false_r.
Qed.

Lemma starts_url_length (s : pystr) : starts_url s = true -> (5 <= length s)%nat.
Proof.
  destruct s as [|a1 [|a2 [|a3 [|a4 [|a5 s]]]]]; cbn [starts_url]; try discriminate.
  intros _. cbn [length]. lia.
Qed.

(** The URL substitution works on each side of a space character by
    itself. *)
Lemma sub_url_split (s : pystr) (c : N) (t : pystr) :
  Re.is_space c = true ->
  Re.sub url_pattern [] (s ++ c :: t)
  = Re.sub url_pattern [] s ++ c :: Re.sub url_pattern [] t.
Proof.
  intros Hc. unfold Re.sub.
  assert (nonspace c = false) as Hn by (unfold nonspace; now rewrite Hc).
  remember (length s) as n eqn:Hlen. revert s Hlen.
  induction n as [n IH] using lt_wf_ind. intros s Hlen.
  destruct s as [|a s].
  - pose proof (starts_url_before_space [] c t Hc) as H0.
    change ([] ++ c :: t) with (c :: t) in *. change (starts_url []) with false in H0.
    change (Re.sub_from url_pattern [] 0 []) with (@nil N). cbn [app].
    rewrite sub_from_cons, match_url, H0. reflexivity.
  - change ((a :: s) ++ c :: t) with (a :: (s ++ c :: t)).
    rewrite !sub_from_cons, !match_url.
    change (a :: (s ++ c :: t)) with ((a :: s) ++ c :: t).
    rewrite (starts_url_before_space (a :: s) c t Hc).
    destruct (starts_url (a :: s)) eqn:Hu.
    + apply starts_url_length in Hu. cbn [length] in Hu.
      replace (drop 4 ((a :: s) ++ c :: t)) with (drop 4 (a :: s) ++ c :: t)
        by (rewrite drop_app_le by (cbn [length]; lia); reflexivity).
      rewrite (prefix_length_stop nonspace _ c t Hn).
      set (r := prefix_length nonspace (drop 4 (a :: s))).
      assert (r <= length (drop 4 (a :: s)))%nat as Hr by apply prefix_length_le.
      rewrite length_drop in Hr. cbn [length] in Hr.
      cbn [Nat.add app].
      rewrite drop_app_le by lia.
      apply (IH (length (drop (3 + r) s))); [|reflexivity].
      rewrite length_drop. cbn [length] in Hlen. lia.
    + cbn [app]. f_equal. apply (IH (length s)); [|reflexivity].
      cbn [length] in Hlen. lia.
Qed.

Lemma separator_value (c : N) :
  Re.is_space c = true ->
  lower (List.filter keep_char [newline_to_space c]) = separator c.
Proof.
  intros Hc. unfold separator, newline_to_space.
  destruct (c =? 10) eqn:E10; [now rewrite orb_true_r|].
  destruct (c =? 32) eqn:E32; [apply N.eqb_eq in E32 as ->; reflexivity|].
  cbn [orb List.filter].
  assert (keep_char c = false) as ->; [|reflexivity].
  apply N.eqb_neq in E10, E32.
  unfold Re.is_space, Re.whitespace, Re.in_range in Hc. cbn [existsb fst snd] in Hc.
  unfold keep_char, keep_ranges, Re.in_range. cbn [existsb fst snd].
  repeat (apply orb_prop in Hc as [Hc|Hc]); try discriminate; N_bounds;
    repeat (apply orb_false_intro); try reflexivity;
    try (apply andb_false_iff;
         first [ left; apply N.leb_gt; lia | right; apply N.leb_gt; lia ]).
Qed.

(** X2. [clean_text] cleans the two sides of a space character each by
    itself: the result on [s ++ c :: t], for a space character [c], is
    the result on [s], then a space when [c] is a space or a newline and
    nothing when it is another space character (a tab, a carriage
    return: the words on its two sides are joined), then the result on
    [t]. *)
Theorem clean_text_splits_at_space (s : pystr) (c : N) (t : pystr) :
  Re.is_space c = true ->
  exists out_s out_t,
    clean_text (PyStr s) = Ok out_s
    /\ clean_text (PyStr t) = Ok out_t
    /\ clean_text (PyStr (s ++ c :: t)) = Ok (out_s ++ separator c ++ out_t).
Proof.
  intros Hc. do 2 eexists.
  split; [apply clean_text_value|]. split; [apply clean_text_value|].
  rewrite clean_text_value, (sub_url_split s c t Hc). f_equal.
  rewrite map_app. cbn [map]. rewrite List.filter_app.
  change (newline_to_space c :: map newline_to_space (Re.sub url_pattern [] t))
    with ([newline_to_space c] ++ map newline_to_space (Re.sub url_pattern [] t)).
  rewrite List.filter_app. unfold lower at 1. rewrite !map_app.
  fold (lower (List.filter keep_char [newline_to_space c])).
  now rewrite (separator_value c Hc).
Qed.

End MoreTextCleaner.

(** A tab between two words is deleted and the words are joined. *)
Lemma clean_text_splits_at_space_witness :
  exists out_s out_t,
    clean_text (PyStr (str_of "see http://x.y")) = Ok out_s
    /\ clean_text (PyStr (str_of "Talk")) = Ok out_t
    /\ clean_text (PyStr (str_of "see http://x.y" ++ 9%N :: str_of "Talk"))
       = Ok (out_s ++ separator 9 ++ out_t).
Proof.
  apply (clean_text_splits_at_space (str_of "see http://x.y") 9 (str_of "Talk")).
  reflexivity.
Defined.

(** ** What [clean_text] leaves unchanged *)

Section CleanFixedPoints.

Local Open Scope N_scope.

Lemma sublist_same_length {A} (l1 l2 : list A) :
  l1 `sublist_of` l2 -> (length l2 <= length l1)%nat -> l1 = l2.
Proof.
  induction 1 as [|x l1 l2 Hs IH|x l1 l2 Hs IH]; cbn [length]; intros Hlen.
  - reflexivity.
  - f_equal. apply IH. lia.
  - apply sublist_length in Hs. lia.
Qed.

Lemma filter_fixed {A} (f : A -> bool) (l : list A) :
  List.filter f l = l <-> Forall (fun x => f x = true) l.
Proof.
  induction l as [|x l IH]; cbn [List.filter]; [split; auto|].
  destruct (f x) eqn:Hx; split.
  - intros [= Hl]. constructor; [exact Hx|now apply IH].
  - intros Hall. inversion Hall; subst. f_equal. now apply IH.
  - intros Heq. pose proof (sublist_length _ _ (filter_sublist f l)) as Hlen.
    rewrite Heq in Hlen. cbn [length] in Hlen. lia.
  - intros Hall. inversion Hall; subst. congruence.
Qed.

Lemma map_fixed {A} (f : A -> A) (l : list A) :
  map f l = l <-> Forall (fun x => f x = x) l.
Proof.
  induction l as [|x l IH]; cbn [map]; [split; auto|]. split.
  - intros [= Hx Hl]. constructor; [exact Hx|now apply IH].
  - intros Hall. inversion Hall; subst. f_equal; [assumption|now apply IH].
Qed.

(** The URL substitution changes nothing exactly when the pattern
    matches at no position. *)
Lemma sub_url_fixed (s : pystr) :
  Re.sub url_pattern [] s = s <-> forall k, starts_url (drop k s) = false.
Proof.
  unfold Re.sub. induction s as [|c s IH].
  - split; [|reflexivity]. intros _ k. now rewrite drop_nil.
  - rewrite sub_from_cons, match_url. split.
    + destruct (starts_url (c :: s)) eqn:Hu.
      * cbn [Nat.add app]. intros Heq. exfalso.
        pose proof (sublist_length _ _
          (sub_from_nil_sublist url_pattern 0
             (drop (3 + prefix_length nonspace (drop 4 (c :: s))) s))) as Hlen.
        cbn [Nat.add] in Hlen. rewrite Heq, length_drop in Hlen.
        cbn [length] in Hlen. lia.
      * intros [= Heq] [|k]; [exact Hu|]. cbn [drop]. now apply IH.
    + intros Hno. pose proof (Hno 0%nat) as H0. rewrite drop_0 in H0.
      rewrite H0. f_equal. apply IH.
      intros k. apply (Hno (S k)).
Qed.

Lemma clean_char_fixed (c : N) :
  keep_char (newline_to_space c) = true /\ lower_char (newline_to_space c) = c
  <-> clean_char c = true.
Proof.
  unfold clean_char, keep_char, keep_ranges, lower_char, newline_to_space, Re.in_range.
  cbn [existsb fst snd]. split.
  - intros [Hk Hl]. destruct (c =? 10) eqn:E10.
    + apply N.eqb_eq in E10 as ->. discriminate.
    + destruct ((65 <=? c) && (c <=? 90)) eqn:E; [lia|].
      cbn [orb] in Hk. rewrite orb_false_r in Hk.
      replace (c =? 32) with ((32 <=? c) && (c <=? 32));
        [now rewrite <- orb_assoc|].
      destruct (c =? 32) eqn:E32; [apply N.eqb_eq in E32 as ->; reflexivity|].
      apply N.eqb_neq in E32. apply andb_false_iff.
      destruct (32 <=? c) eqn:E1; [right; apply N.leb_gt; N_bounds; lia|now left].
  - intros Hc.
    assert ((c =? 10) = false) as ->.
    { apply N.eqb_neq. intros ->. discriminate. }
    assert ((65 <=? c) && (c <=? 90) = false) as ->.
    { repeat (apply orb_prop in Hc as [Hc|Hc]); N_bounds;
        try (apply N.eqb_eq in Hc as ->; reflexivity);
        apply andb_false_iff; first [left; apply N.leb_gt; lia|right; apply N.leb_gt; lia]. }
    split; [|reflexivity]. cbn [orb]. rewrite orb_false_r.
    repeat (apply orb_prop in Hc as [Hc|Hc]).
    + now rewrite Hc.
    + rewrite Hc. now rewrite orb_true_r.
    + apply N.eqb_eq in Hc as ->. reflexivity.
Qed.

(** A string of [a-z0-9 ] without a match of the URL pattern is
    returned as it is. *)
Lemma clean_text_fixed_if (s : pystr) :
  Forall (fun c => clean_char c = true) s ->
  (forall k, starts_url (drop k s) = false) ->
  clean_text (PyStr s) = Ok s.
Proof.
  intros Hall Hno. rewrite clean_text_value. f_equal.
  apply sub_url_fixed in Hno. rewrite Hno.
  assert (Forall (fun c => keep_char c = true) (map newline_to_space s)) as Hf.
  { rewrite Forall_fmap. eapply Forall_impl; [exact Hall|].
    intros c Hc. now apply clean_char_fixed in Hc. }
  apply filter_fixed in Hf. rewrite Hf. unfold lower. rewrite map_map.
  apply map_fixed. eapply Forall_impl; [exact Hall|].
  intros c Hc. now apply clean_char_fixed in Hc.
Qed.

(** What the last two steps of [clean_text] let through. *)
Lemma cleaned_alphabet (s : pystr) :
  Forall (fun c => clean_char c = true) (lower (List.filter keep_char s)).
Proof.
  unfold lower. rewrite Forall_fmap. apply Forall_forall. intros c Hc.
  apply list_elem_of_In, List.filter_In in Hc as [_ Hk].
  unfold compose.
  pose proof (lower_keep_char c Hk) as Hl. unfold clean_char.
  destruct Hl as [[H1 H2]|[[H1 H2]|H]].
  - apply N.leb_le in H1, H2. now rewrite H1, H2.
  - apply N.leb_le in H1, H2. rewrite H1, H2. now rewrite orb_true_r.
  - rewrite H. reflexivity.
Qed.

Lemma sublist_Forall {A} (P : A -> Prop) (l1 l2 : list A) :
  l1 `sublist_of` l2 -> Forall P l2 -> Forall P l1.
Proof.
  induction 1 as [|x l1 l2 _ IH|x l1 l2 _ IH]; intros Hall.
  - constructor.
  - inversion Hall; subst. constructor; auto.
  - inversion Hall; subst. auto.
Qed.

Lemma starts_url_app (l x : pystr) :
  starts_url l = true -> starts_url (l ++ x) = true.
Proof.
  destruct l as [|a1 [|a2 [|a3 [|a4 [|a5 l]]]]]; cbn [starts_url]; try discriminate.
  intros H. exact H.
Qed.

(** What is left after a match of the URL pattern is removed: nothing,
    or a string that starts with a space character. *)
Lemma after_url (s : pystr) :
  drop (prefix_length nonspace s) s = []
  \/ exists sp t, drop (prefix_length nonspace s) s = sp :: t /\ Re.is_space sp = true.
Proof.
  induction s as [|c s IH]; [now left|].
  cbn [prefix_length]. destruct (nonspace c) eqn:Hc; [exact IH|].
  right. exists c, s. split; [reflexivity|].
  unfold nonspace in Hc. now destruct (Re.is_space c).
Qed.

(** The URL substitution creates no match of the pattern: a match in
    its result, even behind some text [l], is one of its argument. *)
Lemma sub_url_no_new_match (s : pystr) : forall l,
  starts_url (l ++ Re.sub url_pattern [] s) = true -> starts_url (l ++ s) = true.
Proof.
  unfold Re.sub. remember (length s) as n eqn:Hlen. revert s Hlen.
  induction n as [n IH] using lt_wf_ind. intros s Hlen l.
  destruct s as [|a s]; [auto|].
  rewrite sub_from_cons, match_url.
  destruct (starts_url (a :: s)) eqn:Hu.
  - cbn [Nat.add app].
    set (r := prefix_length nonspace (drop 4 (a :: s))).
    assert (drop (S (S (S r))) s = drop r (drop 4 (a :: s))) as Hrest.
    { change (drop 4 (a :: s)) with (drop 3 s). now rewrite drop_drop. }
    rewrite Hrest. intros Hres.
    apply (IH (length (drop r (drop 4 (a :: s))))) in Hres; [|
      rewrite !length_drop; cbn [length] in *; lia|reflexivity].
    apply starts_url_app.
    destruct (after_url (drop 4 (a :: s))) as [Hnil|(sp & t & Hcons & Hsp)];
      fold r in Hnil || fold r in Hcons.
    + now rewrite Hnil, app_nil_r in Hres.
    + rewrite Hcons in Hres. now rewrite (starts_url_before_space l sp t Hsp) in Hres.
  - intros Hres.
    change (l ++ a :: Re.sub_from url_pattern [] 0 s)
      with (l ++ [a] ++ Re.sub_from url_pattern [] 0 s) in Hres.
    rewrite app_assoc in Hres.
    apply (IH (length s)) in Hres; [|cbn [length] in *; lia|reflexivity].
    now rewrite <- app_assoc in Hres.
Qed.

(** The result of the URL substitution holds no match of the
    pattern. *)
Lemma sub_url_no_match (s : pystr) :
  forall k, starts_url (drop k (Re.sub url_pattern [] s)) = false.
Proof.
  remember (length s) as n eqn:Hlen. revert s Hlen.
  induction n as [n IH] using lt_wf_ind. intros s Hlen k.
  destruct s as [|a s].
  { change (Re.sub url_pattern [] []) with (@nil N). now rewrite drop_nil. }
  unfold Re.sub. rewrite sub_from_cons, match_url.
  destruct (starts_url (a :: s)) eqn:Hu.
  - cbn [Nat.add app].
    apply (IH (length (drop (3 + prefix_length nonspace (drop 4 (a :: s))) s)));
      [rewrite length_drop; cbn [length] in *; lia|reflexivity].
  - destruct k as [|k].
    + rewrite drop_0.
      destruct (starts_url (a :: Re.sub_from url_pattern [] 0 s)) eqn:Hres;
        [|reflexivity].
      apply (sub_url_no_new_match s [a]) in Hres. cbn [app] in Hres. congruence.
    + cbn [drop]. apply (IH (length s)); [cbn [length] in *; lia|reflexivity].
Qed.

(** X3. The strings that [clean_text] returns unchanged are exactly the
    strings of lower-case letters, digits and spaces in which "http" is
    nowhere followed by a character that is not a space. *)
Theorem clean_text_fixed_points (s : pystr) :
  clean_text (PyStr s) = Ok s
  <-> Forall (fun c => clean_char c = true) s
      /\ forall k, starts_url (drop k s) = false.
Proof.
  split; [|intros [Hall Hno]; now apply clean_text_fixed_if].
  rewrite clean_text_value. intros [= Heq].
  pose proof (sub_from_nil_sublist url_pattern 0 s) as Hurl.
  fold (Re.sub url_pattern [] s) in Hurl.
  pose proof (filter_sublist keep_char (map newline_to_space (Re.sub url_pattern [] s)))
    as Hkeep.
  assert (Re.sub url_pattern [] s = s) as Hs.
  { apply sublist_same_length; [exact Hurl|].
    apply sublist_length in Hkeep. rewrite length_map in Hkeep.
    apply (f_equal length) in Heq. unfold lower in Heq. rewrite length_map in Heq. lia. }
  rewrite Hs in Heq, Hkeep.
  assert (List.filter keep_char (map newline_to_space s) = map newline_to_space s) as Hf.
  { apply sublist_same_length; [exact Hkeep|].
    apply (f_equal length) in Heq. unfold lower in Heq. rewrite length_map in Heq.
    rewrite length_map. lia. }
  rewrite Hf in Heq. unfold lower in Heq. rewrite map_map in Heq.
  apply filter_fixed in Hf. apply map_fixed in Heq.
  split; [|now apply sub_url_fixed].
  rewrite Forall_forall in Hf, Heq |- *. intros c Hc.
  apply clean_char_fixed. split; [|now apply Heq].
  apply Hf. now apply (list_elem_of_fmap_2 newline_to_space).
Qed.

(** X4. Whatever [clean_text] returns is made of lower-case letters
    [a-z], digits and spaces only. *)
Theorem clean_text_alphabet (text : pyval) (out : pystr) :
  clean_text text = Ok out -> Forall (fun c => clean_char c = true) out.
Proof.
  destruct text as [s| | | |]; try discriminate.
  rewrite clean_text_value. intros [= <-]. apply cleaned_alphabet.
Qed.

(** X5. [clean_text] is not idempotent: deleting the special characters
    comes after the URL substitution and can put together an "http..."
    that a second call then deletes. A second call does nothing but
    this URL substitution, and its result is stable: a third call
    returns it unchanged. *)
Theorem clean_text_stable_after_two :
  ~ (forall s out : pystr,
       clean_text (PyStr s) = Ok out -> clean_text (PyStr out) = Ok out)
  /\ (forall s once twice : pystr,
        clean_text (PyStr s) = Ok once ->
        clean_text (PyStr once) = Ok twice ->
        twice = Re.sub url_pattern [] once
        /\ clean_text (PyStr twice) = Ok twice).
Proof.
  split.
  { intros Hidem.
    specialize (Hidem (str_of "ht-tp://x.com") (str_of "httpxcom") eq_refl).
    vm_compute in Hidem. discriminate. }
  intros s once twice. rewrite !clean_text_value. intros [= <-].
  set (once := lower (List.filter keep_char
                        (map newline_to_space (Re.sub url_pattern [] s)))).
  pose proof (cleaned_alphabet (map newline_to_space (Re.sub url_pattern [] s))) as Honce.
  fold once in Honce.
  assert (Forall (fun c => clean_char c = true) (Re.sub url_pattern [] once)) as Hsub.
  { eapply sublist_Forall; [apply sub_from_nil_sublist|exact Honce]. }
  assert (lower (List.filter keep_char (map newline_to_space (Re.sub url_pattern [] once)))
          = Re.sub url_pattern [] once) as Htwice.
  { assert (Forall (fun c => keep_char c = true)
              (map newline_to_space (Re.sub url_pattern [] once))) as Hf.
    { rewrite Forall_fmap. eapply Forall_impl; [exact Hsub|].
      intros c Hc. now apply clean_char_fixed in Hc. }
    apply filter_fixed in Hf. rewrite Hf. unfold lower. rewrite map_map.
    apply map_fixed. eapply Forall_impl; [exact Hsub|].
    intros c Hc. now apply clean_char_fixed in Hc. }
  rewrite Htwice. intros [= <-]. split; [reflexivity|].
  rewrite <- clean_text_value.
  apply clean_text_fixed_if; [exact Hsub|apply sub_url_no_match].
Qed.

End CleanFixedPoints.

Lemma clean_text_alphabet_witness :
  clean_text (PyStr (str_of "Visit http://x.com NOW!!")) = Ok (str_of "visit  now")
  /\ Forall (fun c => clean_char c = true) (str_of "visit  now").
Proof.
  split; [reflexivity|].
  apply (clean_text_alphabet (PyStr (str_of "Visit http://x.com NOW!!"))).
  reflexivity.
Defined.

(** ** The errors of [__getitem__] and of a traversal *)

Section DatasetErrors.

Lemma iloc_raises (df : list Row) (index : Z) (e : exn) :
  iloc df index = Raise e -> e = IndexError.
Proof.
  unfold iloc. destruct (_ && _); [|now intros [= <-]].
  destruct (df !! _); [discriminate|now intros [= <-]].
Qed.

(** [select_columns] raises exactly when a named column is missing, and
    then [KeyError]. *)
Lemma select_columns_raises (row : Row) (columns : list string) (e : exn) :
  select_columns row columns = Raise e ->
  e = KeyError /\ exists label, label ∈ columns /\ int_columns row !! label = None.
Proof.
  unfold select_columns. induction columns as [|c columns IH]; cbn [rmapM]; [discriminate|].
  destruct (int_columns row !! c) as [v|] eqn:Hv; cbn [rbind].
  - destruct (rmapM _ columns) as [vs|e']; cbn [rbind]; [discriminate|].
    intros [= <-]. destruct (IH eq_refl) as (-> & label & Hin & Hnone).
    split; [reflexivity|]. exists label. split; [now right|exact Hnone].
  - intros [= <-]. split; [reflexivity|]. exists c. split; [left|exact Hv].
Qed.

Lemma select_columns_missing (row : Row) (columns : list string) (label : string) :
  label ∈ columns -> int_columns row !! label = None ->
  select_columns row columns = Raise KeyError.
Proof.
  intros Hin Hnone.
  destruct (select_columns row columns) as [targets|e] eqn:Hsel.
  - apply select_columns_inv in Hsel.
    apply (list_elem_of_fmap_2 (fun c => int_columns row !! c)) in Hin.
    rewrite <- Hsel, Hnone in Hin.
    apply list_elem_of_fmap in Hin as (v & Hv & _). discriminate.
  - now apply select_columns_raises in Hsel as [-> _].
Qed.

(** X6. The exceptions of [__getitem__], which returns at no index. It
    raises [IndexError] exactly at the positions [iloc] refuses (below
    [-len] or from [len] on), [KeyError] exactly when the position is
    accepted and the row read lacks one of the label columns the
    dataset was built with, and [TypeError] exactly when the position
    is accepted and the row has them all: the conversion of the label
    cells to a tensor is then reached, and refused. *)
Theorem getitem_exceptions (self : ToxicCommentsDataset) (index : Z) :
  (__getitem__ self index = Raise IndexError
   <-> (index < - Z.of_nat (__len__ self) \/ Z.of_nat (__len__ self) <= index)%Z)
  /\ (__getitem__ self index = Raise KeyError
      <-> exists row label,
            iloc (self_df self) index = Ok row
            /\ label ∈ self_labels self
            /\ int_columns row !! label = None)
  /\ (__getitem__ self index = Raise TypeError
      <-> exists row,
            iloc (self_df self) index = Ok row
            /\ forall label, label ∈ self_labels self ->
                             is_Some (int_columns row !! label))
  /\ (forall example, __getitem__ self index <> Ok example).
Proof.
  assert (Hrange : (index < - Z.of_nat (__len__ self)
                    \/ Z.of_nat (__len__ self) <= index)%Z
                   \/ exists row, iloc (self_df self) index = Ok row).
  { unfold __len__.
    destruct (Z_lt_le_dec index (- Z.of_nat (length (self_df self)))); [auto|].
    destruct (Z_lt_le_dec index (Z.of_nat (length (self_df self)))); [|auto].
    right. apply iloc_accepts. lia. }
  split; [|split; [|split; [|apply getitem_no_example]]].
  - split; [|apply getitem_out_of_range].
    intros Hget. destruct Hrange as [Hout|[row Hrow]]; [exact Hout|].
    unfold __getitem__ in Hget. rewrite Hrow in Hget. cbn [rbind] in Hget.
    destruct (select_columns row (self_labels self)) as [cells|e] eqn:Hsel;
      cbn [rbind] in Hget; [discriminate|].
    apply select_columns_raises in Hsel as [-> _]. discriminate.
  - split.
    + intros Hget. destruct Hrange as [Hout|[row Hrow]].
      { rewrite (getitem_out_of_range self index Hout) in Hget. discriminate. }
      unfold __getitem__ in Hget. rewrite Hrow in Hget. cbn [rbind] in Hget.
      destruct (select_columns row (self_labels self)) as [cells|e] eqn:Hsel;
        cbn [rbind] in Hget; [discriminate|].
      apply select_columns_raises in Hsel as (_ & label & Hin & Hnone).
      now exists row, label.
    + intros (row & label & Hrow & Hin & Hnone).
      unfold __getitem__. rewrite Hrow. cbn [rbind].
      now rewrite (select_columns_missing _ _ _ Hin Hnone).
  - split.
    + intros Hget. destruct Hrange as [Hout|[row Hrow]].
      { rewrite (getitem_out_of_range self index Hout) in Hget. discriminate. }
      exists row. split; [exact Hrow|]. intros label Hin.
      destruct (int_columns row !! label) eqn:Hcell; [eauto|].
      unfold __getitem__ in Hget. rewrite Hrow in Hget. cbn [rbind] in Hget.
      rewrite (select_columns_missing _ _ _ Hin Hcell) in Hget. discriminate.
    + intros (row & Hrow & Hcols). now apply (getitem_accepted self index row).
Qed.

(** A frame whose only row has no column [obscene]. *)
Example getitem_short_row :
  __getitem__ (make_dataset [short_row] char_tokenizer) 0 = Raise KeyError.
Proof. vm_compute. reflexivity. Qed.

End DatasetErrors.

Section Traversal.

Context {R : Random} {RS : RandomSpec R}.

(** X7. The quick check of cell 9 fails, and so does every traversal
    of a loader: on a frame with at least one row, whose rows have the
    label columns, and with a positive batch size, a traversal
    (shuffled or not) yields no batch; it raises [TypeError] when it
    fetches the first example of the first batch. *)
Theorem dataloader_iter_type_error (dl : DataLoader) (g : Generator) :
  Forall (fun row => forall c, c ∈ self_labels (dl_dataset dl) ->
                               is_Some (int_columns row !! c))
    (self_df (dl_dataset dl)) ->
  0 < dl_batch_size dl ->
  0 < __len__ (dl_dataset dl) ->
  (dataloader_iter dl g).1 = Raise TypeError.
Proof.
  intros Hcols Hbs Hrows. unfold dataloader_iter, index_batches.
  destruct (dl_batch_size dl =? 0) eqn:E; [apply Nat.eqb_eq in E; lia|]. clear E.
  set (n := __len__ (dl_dataset dl)) in *.
  pose proof (sampler_Permutation (dl_shuffle dl) n g) as Hperm.
  destruct (sampler (dl_shuffle dl) n g) as [indices g'] eqn:Hs. cbn [fst] in *.
  assert (length indices = n) as Hlen by now rewrite Hperm, length_seq.
  pose proof (batch_sampler_count (dl_batch_size dl) indices [] Hbs Hbs) as Hcount.
  pose proof (batch_sampler_concat (dl_batch_size dl) indices []) as Hconcat.
  pose proof (batch_sampler_sizes (dl_batch_size dl) indices [] Hbs Hbs 0) as Hsizes.
  cbn [length app] in Hcount, Hconcat, Hsizes.
  rewrite Nat.add_0_l, Hlen in Hcount.
  destruct (batch_sampler (dl_batch_size dl) [] indices) as [|batch batches].
  { cbn [length] in Hcount. symmetry in Hcount.
    apply Nat.div_small_iff in Hcount; lia. }
  destruct (Hsizes batch eq_refl) as (_ & Hsize).
  rewrite Nat.add_0_l, Nat.mul_0_l, Nat.sub_0_r, Hlen in Hsize.
  destruct batch as [|i batch]; [cbn [length] in Hsize; lia|].
  assert (i < n) as Hi.
  { assert (i ∈ indices) as Hin by (rewrite <- Hconcat; cbn [concat app]; left).
    rewrite Hperm in Hin. apply elem_of_seq in Hin. lia. }
  destruct (iloc_in_range (self_df (dl_dataset dl)) (Z.of_nat i)) as (row & Hrow & _);
    [unfold n, __len__ in Hi; lia|].
  assert (__getitem__ (dl_dataset dl) (Z.of_nat i) = Raise TypeError) as Hget.
  { apply (getitem_accepted _ _ row Hrow).
    rewrite Forall_forall in Hcols. apply Hcols. exact (iloc_elem_of _ _ _ Hrow). }
  cbn [rmapM]. unfold fetch at 1. cbn [rmapM]. rewrite Hget. reflexivity.
Qed.

End Traversal.

(** The training loader of cell 9 over the sample rows. *)
Lemma dataloader_iter_type_error_witness :
  (@dataloader_iter toy_random (train_loader sample_dataset) 1%nat).1 = Raise TypeError.
Proof.
  apply (@dataloader_iter_type_error toy_random toy_random_spec
           (train_loader sample_dataset) 1%nat).
  - exact sample_df_columns.
  - unfold train_loader, BATCH_SIZE. cbn. lia.
  - vm_compute. lia.
Defined.

(** ** The classifier, the evaluation report and the epochs *)

Section Classifier.

Context {E : Encoder} {ES : EncoderSpec E}.

(** X9. The logits of [forward] have the shape [batch, n_classes]: one
    row per example of the batch and, for an output layer of
    [n_classes] units, [n_classes] entries per row, in training and in
    evaluation mode. *)
Theorem forward_logits_shape (self : BertForToxicComment) (n_classes : nat)
    (training : bool) (seed : Seed) (input_ids attention_mask token_type_ids : list (list Z)) :
  length (out_weight self) = n_classes ->
  length (out_bias self) = n_classes ->
  length (forward self training seed input_ids attention_mask token_type_ids)
  = length input_ids
  /\ Forall (fun row => length row = n_classes)
       (forward self training seed input_ids attention_mask token_type_ids).
Proof.
  intros HW Hb.
  destruct (forward_shape self training seed input_ids attention_mask token_type_ids)
    as [Hrows Hwidth].
  split; [exact Hrows|].
  eapply Forall_impl; [exact Hwidth|]. intros row Hrow. cbn beta in Hrow. lia.
Qed.

End Classifier.

Lemma forward_logits_shape_witness :
  length (@forward toy_encoder sample_model true 0
            [[101; 7; 102]; [101; 9; 102]]%Z [[1; 1; 1]; [1; 1; 1]]%Z
            [[0; 0; 0]; [0; 0; 0]]%Z) = 2
  /\ Forall (fun row => length row = 6)
       (@forward toy_encoder sample_model true 0
          [[101; 7; 102]; [101; 9; 102]]%Z [[1; 1; 1]; [1; 1; 1]]%Z
          [[0; 0; 0]; [0; 0; 0]]%Z).
Proof.
  apply (@forward_logits_shape toy_encoder toy_encoder_spec sample_model 6 true 0%nat
           [[101; 7; 102]; [101; 9; 102]]%Z [[1; 1; 1]; [1; 1; 1]]%Z
           [[0; 0; 0]; [0; 0; 0]]%Z); reflexivity.
Defined.

Section Report.

Context {E : Encoder} {O : Optim}.

(** The keys of the dictionary the loop over the labels returns. *)
Lemma roc_auc_loop_dom names : forall i all_targets all_outputs roc_auc roc_auc',
  roc_auc_loop i names all_targets all_outputs roc_auc = Ok roc_auc' ->
  dom roc_auc' = list_to_set names ∪ dom roc_auc.
Proof.
  induction names as [|label names IH]; intros i T outs roc roc'.
  - intros [= <-]. cbn [list_to_set]. now rewrite (left_id_L ∅ (∪)).
  - rewrite roc_auc_loop_cons.
    destruct (column i T) as [y_true|]; [|discriminate].
    destruct (column i outs) as [y_score|]; [|discriminate].
    intros Hloop. apply IH in Hloop. rewrite Hloop, dom_insert_L.
    cbn [list_to_set]. rewrite (comm_L (∪) {[label]} (list_to_set names)).
    now rewrite (assoc_L (∪)).
Qed.

(** X10. When [eval_model] returns, the loss it reports is the
    arithmetic mean of the losses of the batches (each batch counts
    once, whatever its size), computed from the logits in evaluation
    mode at the parameters the model had on entry; and the keys of the
    dictionary are exactly the six labels. *)
Theorem eval_model_returns (data_loader : list Batch) (criterion : Criterion) (w : world)
    (avg_loss : Q) (roc_auc : gmap string pyscore) :
  (eval_model data_loader criterion w).2 = Ok (avg_loss, roc_auc) ->
  (avg_loss
   == arithmetic_mean
        (map (fun batch => criterion (eval_logits w batch) (b_targets batch)) data_loader))%Q
  /\ dom roc_auc = list_to_set labels.
Proof.
  rewrite eval_model_run. cbn [snd]. unfold eval_report.
  destruct data_loader as [|batch batches]; [discriminate|].
  set (data_loader := batch :: batches).
  replace (np_concatenate (map b_targets data_loader))
    with (Ok (concat (map b_targets data_loader))) by reflexivity.
  replace (np_concatenate
             (map (fun batch0 => map (map sigmoid)
                                   (eval_logits (eval_world w data_loader) batch0))
                data_loader))
    with (Ok (concat
                (map (fun batch0 => map (map sigmoid)
                                      (eval_logits (eval_world w data_loader) batch0))
                   data_loader))) by reflexivity.
  cbn [mbind result_bind rbind].
  destruct (roc_auc_loop _ _ _ _ _) as [roc|e] eqn:Hroc; cbn [rbind]; [|discriminate].
  intros [= <- <-]. split.
  - unfold arithmetic_mean. rewrite length_map, fold_left_Qplus, Qplus_0_l. reflexivity.
  - apply roc_auc_loop_dom in Hroc. rewrite Hroc, dom_empty_L.
    now rewrite (right_id_L ∅ (∪)).
Qed.

Lemma column_short {A} (i : nat) (a : list (list A)) (row : list A) :
  row ∈ a -> length row <= i -> column i a = Raise IndexError.
Proof.
  intros Hrow Hlen. destruct (column i a) as [ys|e] eqn:Hcol.
  - unfold column in Hcol. apply rmapM_Forall2 in Hcol.
    apply list_elem_of_lookup in Hrow as [k Hk].
    destruct (Forall2_lookup_l _ _ _ _ _ Hcol Hk) as (y & _ & Hy).
    destruct (row !! i) eqn:Hi; [|discriminate].
    apply lookup_lt_Some in Hi. lia.
  - now apply column_raises in Hcol as ->.
Qed.

(** The loop over the labels fails on targets with fewer columns than
    there are labels left. *)
Lemma roc_auc_loop_short names : forall i all_targets all_outputs roc_auc row,
  row ∈ all_targets -> i <= length row < i + length names ->
  Forall (fun row' => length row' = length row) all_targets ->
  roc_auc_loop i names all_targets all_outputs roc_auc = Raise IndexError.
Proof.
  induction names as [|label names IH]; intros i T outs roc row Hrow Hk Hall.
  - cbn [length] in Hk. lia.
  - rewrite roc_auc_loop_cons.
    destruct (column i T) as [y_true|e1] eqn:HT;
      [|now apply column_raises in HT as ->].
    destruct (column i outs) as [y_score|e2] eqn:HO;
      [|now apply column_raises in HO as ->].
    destruct (decide (i = length row)) as [->|Hne].
    + rewrite (column_short _ T row Hrow) in HT by lia. discriminate.
    + apply (IH (S i) T outs _ row Hrow); [cbn [length] in Hk; lia|exact Hall].
Qed.

(** X11. [eval_model] scores the six labels of the notebook whatever
    the loader holds: on batches whose target rows have [k < 6]
    columns (a dataset built with fewer label columns, and a model with
    as many output units) it raises [IndexError] at label number [k],
    which the handler for [ValueError] does not catch. *)
Theorem eval_model_fewer_labels (data_loader : list Batch) (criterion : Criterion)
    (w : world) (k : nat) :
  data_loader <> [] ->
  Forall (fun batch => b_targets batch <> []
                       /\ Forall (fun row => length row = k) (b_targets batch))
    data_loader ->
  length (out_weight (w_model w)) = k ->
  length (out_bias (w_model w)) = k ->
  k < length labels ->
  (eval_model data_loader criterion w).2 = Raise IndexError.
Proof.
  intros Hne Hall _ _ Hk.
  rewrite eval_model_run. cbn [snd]. unfold eval_report.
  destruct data_loader as [|batch batches]; [contradiction|].
  set (data_loader := batch :: batches) in *.
  replace (np_concatenate (map b_targets data_loader))
    with (Ok (concat (map b_targets data_loader))) by reflexivity.
  replace (np_concatenate
             (map (fun batch0 => map (map sigmoid)
                                   (eval_logits (eval_world w data_loader) batch0))
                data_loader))
    with (Ok (concat
                (map (fun batch0 => map (map sigmoid)
                                      (eval_logits (eval_world w data_loader) batch0))
                   data_loader))) by reflexivity.
  cbn [mbind result_bind rbind].
  assert (Forall (fun row => length row = k) (concat (map b_targets data_loader))) as Hrows.
  { apply Forall_concat, Forall_fmap. eapply Forall_impl; [exact Hall|].
    intros b [_ Hb]. exact Hb. }
  assert (exists row, row ∈ concat (map b_targets data_loader)) as [row Hrow].
  { subst data_loader. apply Forall_cons in Hall as [[Hb _] _].
    destruct (b_targets batch) as [|row rows] eqn:Hrows'; [contradiction|].
    exists row. cbn [map concat]. rewrite Hrows'. left. }
  assert (length row = k) as Hlen.
  { rewrite Forall_forall in Hrows. now apply Hrows. }
  rewrite (roc_auc_loop_short labels 0 _ _ ∅ row Hrow); [reflexivity|lia|].
  now rewrite Hlen.
Qed.

(** X12. Both functions set the mode of the model themselves:
    [train_epoch] and [eval_model] do the same, and return the same,
    whether the model comes in training or in evaluation mode; and what
    [eval_model] reports does not depend on whether gradient recording
    is on when it is called. *)
Theorem mode_set_by_callee (data_loader : list Batch) (criterion : Criterion)
    (scheduler : option Scheduler) (w : world) (mode : bool) :
  train_epoch data_loader criterion scheduler (set_training mode w)
  = train_epoch data_loader criterion scheduler w
  /\ eval_model data_loader criterion (set_training mode w)
     = eval_model data_loader criterion w
  /\ (eval_model data_loader criterion (set_grad_enabled mode w)).2
     = (eval_model data_loader criterion w).2.
Proof.
  destruct w as [m tr g o ge seed log]. split; [|split].
  - unfold train_epoch.
    rewrite !(M_bind_ok model_train _ _ _ tt eq_refl). reflexivity.
  - rewrite !eval_model_run. reflexivity.
  - rewrite !eval_model_run. reflexivity.
Qed.

Lemma step_events_count scheduler (batches : list Batch) :
  length (List.filter is_optimizer_step
            (concat (map (fun _ => step_events scheduler) batches)))
  = length batches
  /\ length (List.filter is_scheduler_step
               (concat (map (fun _ => step_events scheduler) batches)))
     = match scheduler with Some _ => length batches | None => 0 end.
Proof.
  induction batches as [|batch batches [IH1 IH2]];
    [now destruct scheduler|].
  cbn [map concat]. rewrite !List.filter_app, !length_app, IH1, IH2.
  destruct scheduler; split; reflexivity.
Qed.

(** X13. The loop over the epochs of cell 13, with the scheduler of
    cell 11: on a loader with a batch, in a state that records
    gradients, it returns the training loss of its one epoch, having
    stepped the optimizer and the scheduler once per batch: that is
    [len(train_loader)] steps of a schedule that cell 11 sets up for
    [total_steps = 3 * len(train_loader)], so the schedule is a third
    of its way when training ends. *)
Theorem train_epochs_scheduler_steps (train_loader : list Batch) (criterion : Criterion)
    (scheduler : Scheduler) (w : world) :
  train_loader <> [] ->
  w_grad_enabled w = true ->
  exists (w' : world) (train_loss : Q) (calls : list event),
    train_epochs train_loader criterion scheduler w = (w', Ok (Some train_loss))
    /\ w_log w' = w_log w ++ calls
    /\ length (List.filter is_optimizer_step calls) = length train_loader
    /\ length (List.filter is_scheduler_step calls) = length train_loader
    /\ 3 * length (List.filter is_scheduler_step calls)
       = total_steps (length train_loader)
    /\ length (List.filter is_scheduler_step calls) < total_steps (length train_loader).
Proof.
  intros Hne Hge.
  pose proof (train_epoch_run criterion (Some scheduler) train_loader w Hge) as Hrun.
  pose proof (train_steps_shape criterion (Some scheduler) train_loader
                (emit CallModelTrain (set_training true w))) as (_ & Hlog & _ & _).
  destruct (train_steps criterion (Some scheduler)
              (emit CallModelTrain (set_training true w)) train_loader)
    as [w' losses] eqn:Hsteps.
  cbn [fst snd] in *.
  destruct train_loader as [|batch batches]; [contradiction|].
  set (train_loader := batch :: batches) in *.
  exists w'. eexists.
  exists (CallModelTrain
            :: concat (map (fun _ => step_events (Some scheduler)) train_loader)).
  split.
  { unfold train_epochs, EPOCHS. cbn [seq]. rewrite for_loop_cons.
    erewrite M_bind_ok; [|exact Hrun]. reflexivity. }
  split.
  { rewrite Hlog. cbn [emit set_training w_log]. now rewrite <- app_assoc. }
  destruct (step_events_count (Some scheduler) train_loader) as [Hopt Hsch].
  cbn [List.filter is_optimizer_step is_scheduler_step].
  rewrite Hopt, Hsch. unfold total_steps.
  repeat split; try lia. subst train_loader. cbn [length]. lia.
Qed.

End Report.

Lemma eval_model_returns_witness :
  exists (avg_loss : Q) (roc_auc : gmap string pyscore),
    (@eval_model toy_encoder toy_optim sample_loader (@BCEWithLogitsLoss toy_encoder)
       sample_world).2 = Ok (avg_loss, roc_auc)
    /\ (avg_loss
        == arithmetic_mean
             (map (fun batch => @BCEWithLogitsLoss toy_encoder
                                  (eval_logits sample_world batch) (b_targets batch))
                sample_loader))%Q
    /\ dom roc_auc = list_to_set labels.
Proof.
  destruct (@eval_model_report toy_encoder toy_encoder_spec toy_optim sample_loader
              (@BCEWithLogitsLoss toy_encoder) sample_world)
    as (avg_loss & roc_auc & Heval & _);
    [vm_compute; discriminate|exact sample_loader_ok|reflexivity|reflexivity|].
  exists avg_loss, roc_auc. split; [exact Heval|].
  apply (@eval_model_returns toy_encoder toy_optim sample_loader
           (@BCEWithLogitsLoss toy_encoder) sample_world avg_loss roc_auc Heval).
Defined.

Lemma eval_model_fewer_labels_witness :
  (@eval_model toy_encoder toy_optim three_label_loader (@BCEWithLogitsLoss toy_encoder)
     three_label_world).2 = Raise IndexError.
Proof.
  apply (@eval_model_fewer_labels toy_encoder toy_optim three_label_loader
           (@BCEWithLogitsLoss toy_encoder) three_label_world 3).
  - vm_compute. discriminate.
  - vm_compute. repeat constructor; discriminate.
  - reflexivity.
  - reflexivity.
  - vm_compute. lia.
Defined.

Lemma train_epochs_scheduler_steps_witness :
  exists (w' : @world toy_encoder toy_optim) (train_loss : Q) (calls : list event),
    @train_epochs toy_encoder toy_optim sample_loader (@BCEWithLogitsLoss toy_encoder)
      LinearScheduleWithWarmup sample_world = (w', Ok (Some train_loss))
    /\ w_log w' = w_log sample_world ++ calls
    /\ length (List.filter is_optimizer_step calls) = length sample_loader
    /\ length (List.filter is_scheduler_step calls) = length sample_loader
    /\ 3 * length (List.filter is_scheduler_step calls)
       = total_steps (length sample_loader)
    /\ length (List.filter is_scheduler_step calls) < total_steps (length sample_loader).
Proof.
  apply (@train_epochs_scheduler_steps toy_encoder toy_optim sample_loader
           (@BCEWithLogitsLoss toy_encoder) LinearScheduleWithWarmup sample_world).
  - vm_compute. discriminate.
  - reflexivity.
Defined.
